(** * Sensor acquisition core: Modbus RTU codec, value conversion,
      gateway poller and acquisition manager.

    Shallow embedding of [enhanced_sensor_system.py] (the codec is repeated
    verbatim in [temperature_redis.py]).  Python integers are [Z], Python
    floats are the kernel's binary64 [float], lists are [list], dictionaries
    keyed by strings are [gmap string _], and a call that may raise returns
    an [outcome]. *)

From Stdlib Require Import ZArith List String Ascii Bool Lia Sorting.Sorted
  Sorting.Permutation.
From Stdlib Require Import Floats Uint63 DecimalString.
From stdpp Require Import base option list gmap strings.
Import ListNotations.

#[local] Set Warnings "-inexact-float".
#[local] Open Scope Z_scope.

(** ** Python exceptions and results *)

(** The exception classes the modelled code can meet; all of them derive
    from [Exception], which is what the [try] blocks of the source catch. *)
Inductive exn : Type :=
| IndexError
| ValueError
| TypeError
| AttributeError
| OverflowError
| ZeroDivisionError
| OSError
| SocketTimeout.

Inductive outcome (A : Type) : Type :=
| Returns (a : A)
| Raises (e : exn).
Arguments Returns {A} a.
Arguments Raises {A} e.

#[global] Instance outcome_ret : MRet outcome := @Returns.
#[global] Instance outcome_bind : MBind outcome :=
  fun A B (k : A -> outcome B) (m : outcome A) =>
    match m with
    | Returns a => k a
    | Raises e => Raises e
    end.

(** [l[i]] for a non-negative index: [IndexError] out of range. *)
Definition getitem {A : Type} (l : list A) (i : nat) : outcome A :=
  match l !! i with
  | Some x => Returns x
  | None => Raises IndexError
  end.

(** [range(start, stop, step)] for non-negative arguments and [step >= 1]. *)
Fixpoint range_fuel (fuel start stop step : nat) : list nat :=
  match fuel with
  | O => []
  | S fuel' =>
      if (start <? stop)%nat
      then start :: range_fuel fuel' (start + step) stop step
      else []
  end.

Definition range (start stop step : nat) : list nat :=
  range_fuel stop start stop step.

(** [l[:-2]], [l[-2:]] and [l[2:-2]] *)
Definition slice_to_m2 {A : Type} (l : list A) : list A :=
  firstn (length l - 2) l.
Definition slice_from_m2 {A : Type} (l : list A) : list A :=
  skipn (length l - 2) l.
Definition slice_2_to_m2 {A : Type} (l : list A) : list A :=
  skipn 2 (firstn (length l - 2) l).

(** [bytearray(frame)]: every item must be in [range(0, 256)]. *)
Definition is_byte (b : Z) : bool := (0 <=? b) && (b <? 256).
Definition bytearray (frame : list Z) : outcome (list Z) :=
  if forallb is_byte frame then Returns frame else Raises ValueError.

(** ** ModbusRTUClient *)

Module ModbusRTUClient.

(** One pass of the inner [for _ in range(8)] loop. *)
Definition crc_bit (crc : Z) : Z :=
  if negb (Z.land crc 0x0001 =? 0)
  then Z.lxor (Z.shiftr crc 1) 0xA001
  else Z.shiftr crc 1.

(** One pass of the outer loop: [crc ^= byte] and the eight shifts. *)
Definition crc_byte (crc byte : Z) : Z :=
  Nat.iter 8 crc_bit (Z.lxor crc byte).

Definition modbus_crc (data : list Z) : list Z :=
  let crc := fold_left crc_byte data 0xFFFF in
  [Z.land crc 0xFF; Z.land (Z.shiftr crc 8) 0xFF].

Definition build_rtu_request (slave_addr start_reg reg_count func_code : Z)
  : outcome (list Z) :=
  let frame :=
    [ slave_addr;
      func_code;
      Z.land (Z.shiftr start_reg 8) 0xFF;
      Z.land start_reg 0xFF;
      Z.land (Z.shiftr reg_count 8) 0xFF;
      Z.land reg_count 0xFF ] in
  let crc := modbus_crc frame in
  let frame := frame ++ crc in
  bytearray frame.

(** The [{"error": ...}] dictionaries, by message:
    "响应帧过短", "CRC校验失败", "功能码..响应数据为空", "不支持的功能码". *)
Inductive rtu_error : Type :=
| FrameTooShort
| ChecksumMismatch
| EmptyPayload (func_code : Z)
| UnsupportedFunction (func_code : Z).

(** The dictionary [parse_rtu_response] returns: an error, or the one with
    ["slave_addr"], ["func_code"], ["registers"] and ["valid": True]. *)
Inductive rtu_response : Type :=
| ErrorDict (error : rtu_error)
| ValidDict (slave_addr func_code : Z) (registers : list Z).

(** The register loop [for i in range(1, len(data), 2)], unrolled over the
    indices still to visit. *)
Fixpoint register_loop (data : list Z) (indices : list nat) (registers : list Z)
  : outcome (list Z) :=
  match indices with
  | [] => Returns registers
  | i :: indices' =>
      if (length data <? i + 1)%nat then Returns registers (* break *)
      else
        hi ← getitem data i;
        lo ← getitem data (i + 1);
        let reg_value := Z.lor (Z.shiftl hi 8) lo in
        register_loop data indices' (registers ++ [reg_value])
  end.

Definition parse_rtu_response (response_bytes : list Z) : outcome rtu_response :=
  let response := response_bytes in
  if (length response <? 4)%nat then Returns (ErrorDict FrameTooShort)
  else
    slave_addr ← getitem response 0;
    func_code ← getitem response 1;
    let data := slice_2_to_m2 response in
    let received_crc := slice_from_m2 response in
    let calculated_crc := modbus_crc (slice_to_m2 response) in
    if negb (bool_decide (received_crc = calculated_crc))
    then Returns (ErrorDict ChecksumMismatch)
    else if (func_code =? 0x03) || (func_code =? 0x04) then
      if (length data <? 1)%nat then Returns (ErrorDict (EmptyPayload func_code))
      else
        byte_count ← getitem data 0;
        registers ← register_loop data (range 1 (length data) 2) [];
        Returns (ValidDict slave_addr func_code registers)
    else Returns (ErrorDict (UnsupportedFunction func_code)).

End ModbusRTUClient.


(** ** Numbers: Python [int] and [float] *)

(** [float(z)], which is also the conversion of the [int] operand of a mixed
    operation.  Below [2^53] in magnitude every integer is a binary64 value
    and the conversion is exact; beyond, the result is the binary64 value
    nearest to [z], ties to even, and [OverflowError] when that is beyond
    the largest finite value. *)
Definition float_of_int (z : Z) : outcome float :=
  if Z.abs z <? 2 ^ 53 then
    Returns (if z <? 0 then (- of_uint63 (of_Z (- z)))%float
             else of_uint63 (of_Z z))
  else
    match binary_normalize prec emax z 0 false with
    | S754_infinity _ => Raises OverflowError
    | nearest => Returns (SF2Prim nearest)
    end.

(** [a / b] on two [int]s: [ZeroDivisionError] for a zero divisor; when both
    are below [2^53] in magnitude, the binary64 quotient of their exact
    conversions; otherwise the binary64 value nearest to the quotient, ties
    to even ([k] fraction bits are enough for the rounding, with the last
    bit of [m] standing for what lies below them), and [OverflowError] when
    that is beyond the largest finite value. *)
Definition int_truediv (a b : Z) : outcome float :=
  if b =? 0 then Raises ZeroDivisionError
  else if a =? 0 then Returns (if b <? 0 then neg_zero else zero)
  else
    let negative := xorb (a <? 0) (b <? 0) in
    let n := Z.abs a in
    let d := Z.abs b in
    if (n <? 2 ^ 53) && (d <? 2 ^ 53) then
      let quotient := (of_uint63 (of_Z n) / of_uint63 (of_Z d))%float in
      Returns (if negative then (- quotient)%float else quotient)
    else
      let k := Z.max 0 (64 + Z.log2 d - Z.log2 n) in
      let q := (n * 2 ^ k) / d in
      let sticky := if (n * 2 ^ k) mod d =? 0 then 0 else 1 in
      let m := 2 * q + sticky in
      match binary_normalize prec emax (if negative then - m else m)
              (- k - 1) false with
      | S754_infinity _ => Raises OverflowError
      | nearest => Returns (SF2Prim nearest)
      end.

Inductive number : Type :=
| Int (z : Z)
| Float (f : float).

Definition to_float (x : number) : outcome float :=
  match x with
  | Int z => float_of_int z
  | Float f => Returns f
  end.

(** [x * y], [x + y], [x - y]: exact on two integers; otherwise the integer
    operand, if any, is converted and the operation is the binary64 one. *)
Definition num_mul (x y : number) : outcome number :=
  match x, y with
  | Int a, Int b => Returns (Int (a * b))
  | _, _ =>
      fx ← to_float x;
      fy ← to_float y;
      Returns (Float (fx * fy))
  end.
Definition num_add (x y : number) : outcome number :=
  match x, y with
  | Int a, Int b => Returns (Int (a + b))
  | _, _ =>
      fx ← to_float x;
      fy ← to_float y;
      Returns (Float (fx + fy))
  end.
Definition num_sub (x y : number) : outcome number :=
  match x, y with
  | Int a, Int b => Returns (Int (a - b))
  | _, _ =>
      fx ← to_float x;
      fy ← to_float y;
      Returns (Float (fx - fy))
  end.
(** [x / y] *)
Definition num_div (x y : number) : outcome number :=
  match x, y with
  | Int a, Int b => f ← int_truediv a b; Returns (Float f)
  | _, _ =>
      fx ← to_float x;
      fy ← to_float y;
      if (fy =? 0)%float then Raises ZeroDivisionError
      else Returns (Float (fx / fy))
  end.
(** [abs(x)] *)
Definition num_abs (x : number) : number :=
  match x with
  | Int a => Int (Z.abs a)
  | Float f => Float (abs f)
  end.

(** [z > f] and [f > z] for an [int] and a [float]: Python compares the two
    values as they are, without converting the integer. *)
Definition int_gt_float (z : Z) (f : float) : bool :=
  match Prim2SF f with
  | S754_nan => false
  | S754_infinity negative => negative
  | S754_zero _ => 0 <? z
  | S754_finite negative m e =>
      let v := if negative then Zneg m else Zpos m in
      if 0 <=? e then v * 2 ^ e <? z else v <? z * 2 ^ (- e)
  end.
Definition float_gt_int (f : float) (z : Z) : bool :=
  match Prim2SF f with
  | S754_nan => false
  | S754_infinity negative => negb negative
  | S754_zero _ => z <? 0
  | S754_finite negative m e =>
      let v := if negative then Zneg m else Zpos m in
      if 0 <=? e then z <? v * 2 ^ e else z * 2 ^ (- e) <? v
  end.
(** [x > y] *)
Definition num_gt (x y : number) : bool :=
  match x, y with
  | Int a, Int b => b <? a
  | Float a, Float b => (b <? a)%float
  | Int a, Float b => int_gt_float a b
  | Float a, Int b => float_gt_int a b
  end.

(** [time.sleep(secs)] on a [float]: [ValueError] for NaN, [OverflowError]
    when the length in nanoseconds does not fit 64 bits, [ValueError] for a
    negative length; otherwise the call returns once the time has passed. *)
Definition time_sleep (secs : float) : outcome unit :=
  if is_nan secs then Raises ValueError
  else
    let nanoseconds := (secs * 1e9)%float in
    if (nanoseconds <? -9223372036854775808)%float
       || (9223372036854775808 <=? nanoseconds)%float
    then Raises OverflowError
    else if (secs <? 0)%float then Raises ValueError
    else Returns tt.

(** ** Configuration and readings *)

Inductive SensorType : Type :=
| TEMPERATURE
| WIND_SPEED
| PRESSURE
| HUMIDITY.

#[global] Instance SensorType_eq_dec : EqDecision SensorType.
Proof. solve_decision. Defined.

(** What a [sensor_type] attribute holds.  The annotation is not enforced, so
    besides the four members it may be any other object. *)
Inductive sensor_type_value : Type :=
| Member (t : SensorType)
| OtherObject.

#[global] Instance sensor_type_value_eq_dec : EqDecision sensor_type_value.
Proof. solve_decision. Defined.

Record SensorConfig : Type := mkSensorConfig {
  sensor_id : string;
  sensor_type : sensor_type_value;
  slave_addr : Z;
  start_reg : Z;
  reg_count : Z;
  func_code : Z;                       (* default 0x04 *)
  conversion_formula : option string;  (* JSON text, default None *)
  sensor_unit : string                 (* [unit] in the source *)
}.

Record IOModuleConfig : Type := mkIOModuleConfig {
  module_id : string;
  ip : string;
  port : Z;
  sensors : list SensorConfig;
  read_interval : float;               (* default 1.0 *)
  timeout : float                      (* default 5.0 *)
}.

(** [datetime] values, as a count of microseconds. *)
Definition datetime : Type := Z.

Record EnhancedSensorData : Type := mkEnhancedSensorData {
  data_sensor_id : string;
  data_sensor_type : sensor_type_value;
  value : number;
  raw_value : Z;
  timestamp : datetime;
  quality : string                     (* default "good" *)
}.

(** Attribute lookup on an [IOModuleConfig]: the six fields of the dataclass,
    [AttributeError] for any other name. *)
Inductive attribute : Type :=
| AttrStr (s : string)
| AttrInt (z : Z)
| AttrFloat (f : float)
| AttrSensors (l : list SensorConfig).

Definition IOModuleConfig_getattr (config : IOModuleConfig) (name : string)
  : outcome attribute :=
  if String.eqb name "module_id" then Returns (AttrStr (module_id config))
  else if String.eqb name "ip" then Returns (AttrStr (ip config))
  else if String.eqb name "port" then Returns (AttrInt (port config))
  else if String.eqb name "sensors" then Returns (AttrSensors (sensors config))
  else if String.eqb name "read_interval" then Returns (AttrFloat (read_interval config))
  else if String.eqb name "timeout" then Returns (AttrFloat (timeout config))
  else Raises AttributeError.

(** What [json.loads] yields on a formula text, as far as the converter looks
    at it: something that is not a dictionary, or a dictionary with its
    ["type"] entry (when it is a string) and its ["a"] and ["b"] entries
    (when present; numbers). *)
Inductive formula_json : Type :=
| NotADict
| Dict (type : option string) (a b : option number).

(** ** IOModuleReader *)

Module IOModuleReader.
Import ModbusRTUClient.

(** The socket layer and the clock are the environment of a reader.  Each
    call takes the next scripted result of its kind; what the reader does is
    appended to [trace].  Sockets are numbered in creation order. *)
Inductive recv_event : Type :=
| RecvChunk (chunk : list Z) (timed_out : bool)
    (* [recv] returns [chunk]; [timed_out] is the outcome of the test
       [time.time() - start_time > timeout] that follows it *)
| RecvRaises (e : exn).

Inductive event : Type :=
| EvClose (s : nat)
| EvConnect (s : nat) (ok : bool)
| EvSend (s : nat) (request : list Z) (ok : bool)
| EvRecv (s : nat)
| EvCallback (d : EnhancedSensorData).

Record env : Type := mkEnv {
  connect_results : list bool;          (* exhausted: the connection fails *)
  send_results : list (option exn);     (* exhausted: the send succeeds *)
  recv_events : list recv_event;        (* exhausted: [recv] times out *)
  callback_results : list (option exn); (* exhausted: the callback returns *)
  clock : list datetime;                (* exhausted: 0 *)
  next_socket : nat;
  trace : list event
}.

Record Stats : Type := mkStats {
  read_count : Z;
  success_count : Z;
  fail_count : Z;
  last_read_time : option datetime
}.

(** The callable handed to [__init__]. *)
Inductive callable : Type :=
| on_data_received_of_manager
| other_callable (name : string).

Record t : Type := mkReader {
  config : IOModuleConfig;
  data_callback : callable;
  running : bool;
  started : bool;                       (* set by [Thread.start] *)
  sock : option nat;
  last_values : gmap string number;
  stats : Stats
}.

Definition __init__ (config : IOModuleConfig) (data_callback : callable) : t :=
  {| config := config;
     data_callback := data_callback;
     running := false;
     started := false;
     sock := None;
     last_values := ∅;
     stats := {| read_count := 0; success_count := 0; fail_count := 0;
                 last_read_time := None |} |}.

Definition set_sock (s : option nat) (self : t) : t :=
  {| config := config self; data_callback := data_callback self;
     running := running self; started := started self; sock := s;
     last_values := last_values self; stats := stats self |}.
Definition set_running (b : bool) (self : t) : t :=
  {| config := config self; data_callback := data_callback self;
     running := b; started := started self; sock := sock self;
     last_values := last_values self; stats := stats self |}.
Definition set_last_values (m : gmap string number) (self : t) : t :=
  {| config := config self; data_callback := data_callback self;
     running := running self; started := started self; sock := sock self;
     last_values := m; stats := stats self |}.
Definition set_stats (st : Stats) (self : t) : t :=
  {| config := config self; data_callback := data_callback self;
     running := running self; started := started self; sock := sock self;
     last_values := last_values self; stats := st |}.

Definition log (ev : event) (e : env) : env :=
  {| connect_results := connect_results e; send_results := send_results e;
     recv_events := recv_events e; callback_results := callback_results e;
     clock := clock e; next_socket := next_socket e;
     trace := trace e ++ [ev] |}.

(** A computation of the reader thread: it reads and writes the reader object
    and the environment, and returns or raises.  The state survives a raise. *)
Definition M (A : Type) : Type := t * env -> outcome A * (t * env).

#[global] Instance M_ret : MRet M := fun A a st => (Returns a, st).
#[global] Instance M_bind : MBind M :=
  fun A B (k : A -> M B) (m : M A) st =>
    match m st with
    | (Returns a, st') => k a st'
    | (Raises e, st') => (Raises e, st')
    end.

Definition raise {A : Type} (e : exn) : M A := fun st => (Raises e, st).
Definition get_self : M t := fun st => (Returns (fst st), st).
Definition modify_self (f : t -> t) : M unit :=
  fun st => (Returns tt, (f (fst st), snd st)).
Definition emit (ev : event) : M unit :=
  fun st => (Returns tt, (fst st, log ev (snd st))).
Definition lift {A : Type} (o : outcome A) : M A := fun st => (o, st).

(** [try: m except Exception: handler] *)
Definition try_except {A : Type} (m : M A) (handler : exn -> M A) : M A :=
  fun st =>
    match m st with
    | (Returns a, st') => (Returns a, st')
    | (Raises e, st') => handler e st'
    end.

(** *** The socket layer *)

(** [socket.socket(...)]: a fresh socket. *)
Definition socket_socket : M nat :=
  fun st =>
    let e := snd st in
    (Returns (next_socket e),
     (fst st,
      {| connect_results := connect_results e; send_results := send_results e;
         recv_events := recv_events e; callback_results := callback_results e;
         clock := clock e; next_socket := S (next_socket e);
         trace := trace e |})).

(** [s.connect((ip, port))] *)
Definition socket_connect (s : nat) : M unit :=
  fun st =>
    let e := snd st in
    let ok := match connect_results e with ok :: _ => ok | [] => false end in
    let e' :=
      {| connect_results := tail (connect_results e);
         send_results := send_results e; recv_events := recv_events e;
         callback_results := callback_results e; clock := clock e;
         next_socket := next_socket e;
         trace := trace e ++ [EvConnect s ok] |} in
    (if ok then Returns tt else Raises OSError, (fst st, e')).

(** [s.close()] *)
Definition socket_close (s : nat) : M unit := emit (EvClose s).

(** [s.sendall(request)] *)
Definition socket_sendall (s : nat) (request : list Z) : M unit :=
  fun st =>
    let e := snd st in
    let r := match send_results e with r :: _ => r | [] => None end in
    let e' :=
      {| connect_results := connect_results e;
         send_results := tail (send_results e); recv_events := recv_events e;
         callback_results := callback_results e; clock := clock e;
         next_socket := next_socket e;
         trace := trace e ++ [EvSend s request (bool_decide (r = None))] |} in
    (match r with None => Returns tt | Some x => Raises x end, (fst st, e')).

(** [datetime.now()] *)
Definition datetime_now : M datetime :=
  fun st =>
    let e := snd st in
    (Returns (match clock e with now :: _ => now | [] => 0 end),
     (fst st,
      {| connect_results := connect_results e; send_results := send_results e;
         recv_events := recv_events e; callback_results := callback_results e;
         clock := tail (clock e); next_socket := next_socket e;
         trace := trace e |})).

(** [self.data_callback(sensor_data)] *)
Definition call_data_callback (sensor_data : EnhancedSensorData) : M unit :=
  fun st =>
    let e := snd st in
    let r := match callback_results e with r :: _ => r | [] => None end in
    let e' :=
      {| connect_results := connect_results e; send_results := send_results e;
         recv_events := recv_events e;
         callback_results := tail (callback_results e); clock := clock e;
         next_socket := next_socket e;
         trace := trace e ++ [EvCallback sensor_data] |} in
    (match r with None => Returns tt | Some x => Raises x end, (fst st, e')).

(** The receive loop of [read_sensor_data], run over the scripted [recv]
    results: the outcome, what is left of the script, and the number of
    [recv] calls made. *)
Fixpoint recv_loop (script : list recv_event) (response_bytes : list Z)
  : outcome (list Z) * list recv_event * nat :=
  match script with
  | [] => (Raises SocketTimeout, [], 1%nat)
  | RecvRaises e :: script' => (Raises e, script', 1%nat)
  | RecvChunk chunk timed_out :: script' =>
      let response_bytes :=
        if bool_decide (chunk = []) then response_bytes
        else response_bytes ++ chunk in
      let complete :=
        negb (bool_decide (chunk = []))
        && (5 <=? length response_bytes)%nat
        && match response_bytes !! 2%nat with
           | Some data_len =>
               let full_frame_len := 1 + 1 + 1 + data_len + 2 in
               full_frame_len <=? Z.of_nat (length response_bytes)
           | None => false
           end in
      if complete then (Returns response_bytes, script', 1%nat)
      else if timed_out then (Raises SocketTimeout, script', 1%nat)
      else
        let '(r, rest, calls) := recv_loop script' response_bytes in
        (r, rest, S calls)
  end.

Definition receive_response (s : nat) : M (list Z) :=
  fun st =>
    let e := snd st in
    let '(r, rest, calls) := recv_loop (recv_events e) [] in
    (r,
     (fst st,
      {| connect_results := connect_results e; send_results := send_results e;
         recv_events := rest; callback_results := callback_results e;
         clock := clock e; next_socket := next_socket e;
         trace := trace e ++ repeat (EvRecv s) calls |})).

Section Methods.

(** [json.loads], a function of the Python library. *)
Variable json_loads : string -> outcome formula_json.

(** The body of the [try] block of [apply_conversion_formula]: the value to
    return, or [None] when control leaves the block without returning. *)
Definition custom_formula (text : string) (raw_value : Z)
  : outcome (option number) :=
  formula ← json_loads text;
  match formula with
  | NotADict => Raises AttributeError
  | Dict type a b =>
      if bool_decide (type = Some "linear"%string) then
        let a := default (Float 1.0) a in
        let b := default (Float 0.0) b in
        product ← num_mul a (Int raw_value);
        v ← num_add product b;
        Returns (Some v)
      else Returns None
  end.

Definition apply_conversion_formula (raw_value : Z) (sensor_config : SensorConfig)
  : outcome number :=
  let custom :=
    match conversion_formula sensor_config with
    | Some text =>
        if bool_decide (text = ""%string) then None
        else
          match custom_formula text raw_value with
          | Returns (Some v) => Some v
          | Returns None => None
          | Raises _ => None          (* except: pass *)
          end
    | None => None
    end in
  match custom with
  | Some v => Returns v
  | None =>
      let raw := Int raw_value in
      if bool_decide (sensor_type sensor_config = Member TEMPERATURE) then
        if String.prefix "tem_" (sensor_id sensor_config)
        then num_div raw (Float 10.0)
        else
          quotient ← num_div raw (Int 249);
          difference ← num_sub quotient (Int 4);
          product ← num_mul difference (Float 7.5);
          num_sub product (Int 40)
      else if bool_decide (sensor_type sensor_config = Member PRESSURE) then
        quotient ← num_div raw (Int 249);
        difference ← num_sub quotient (Int 4);
        num_mul difference (Float 7.5)
      else if bool_decide (sensor_type sensor_config = Member WIND_SPEED) then
        num_mul raw (Float 0.1)
      else if bool_decide (sensor_type sensor_config = Member HUMIDITY) then
        num_mul raw (Float 0.1)
      else
        f ← float_of_int raw_value;
        Returns (Float f)
  end.

Definition connect : M bool :=
  try_except
    (self ← get_self;
     match sock self with
     | Some s => socket_close s
     | None => mret tt
     end;;
     s ← socket_socket;
     modify_self (set_sock (Some s));;
     socket_connect s;;
     mret true)
    (fun _ => mret false).

Definition disconnect : M unit :=
  self ← get_self;
  match sock self with
  | Some s => socket_close s;; modify_self (set_sock None)
  | None => mret tt
  end.

Definition read_sensor_data (sensor_config : SensorConfig)
  : M (option EnhancedSensorData) :=
  try_except
    (request ← lift (build_rtu_request (slave_addr sensor_config)
                       (start_reg sensor_config) (reg_count sensor_config)
                       (func_code sensor_config));
     self ← get_self;
     s ← match sock self with
         | Some s => mret s
         | None => raise AttributeError
         end;
     socket_sendall s request;;
     response_bytes ← receive_response s;
     parsed_data ← lift (parse_rtu_response response_bytes);
     match parsed_data with
     | ErrorDict _ => mret None
     | ValidDict _ _ registers =>
         if Z.of_nat (length registers) <? reg_count sensor_config
         then mret None
         else
           raw_value ← lift (getitem registers 0);
           converted_value ←
             lift (apply_conversion_formula raw_value sensor_config);
           now ← datetime_now;
           mret (Some {| data_sensor_id := sensor_id sensor_config;
                         data_sensor_type := sensor_type sensor_config;
                         value := converted_value;
                         raw_value := raw_value;
                         timestamp := now;
                         quality := "good" |})
     end)
    (fun _ => mret None).

(** The change test of [run]:
    [last_value is None or abs(sensor_data.value - last_value) > 0.1]. *)
Definition changed (last_value : option number) (new_value : number)
  : outcome bool :=
  match last_value with
  | None => Returns true
  | Some last =>
      difference ← num_sub new_value last;
      Returns (num_gt (num_abs difference) (Float 0.1))
  end.

(** What [run] does with a sensor that was read. *)
Definition detect_change (sensor_config : SensorConfig)
    (sensor_data : EnhancedSensorData) : M unit :=
  self ← get_self;
  let last_value := last_values self !! sensor_id sensor_config in
  exceeds ← lift (changed last_value (value sensor_data));
  if exceeds : bool then
    call_data_callback sensor_data;;
    modify_self (fun self =>
      set_last_values
        (<[sensor_id sensor_config := value sensor_data]> (last_values self))
        self)
  else mret tt.

(** The [for sensor_config in self.config.sensors] loop; the result is
    [read_success]. *)
Fixpoint read_all_sensors (sensors : list SensorConfig) : M bool :=
  match sensors with
  | [] => mret true
  | sensor_config :: sensors' =>
      sensor_data ← read_sensor_data sensor_config;
      match sensor_data with
      | Some d => detect_change sensor_config d;; read_all_sensors sensors'
      | None => mret false              (* read_success = False; break *)
      end
  end.

Definition incr_read_count (self : t) : t :=
  let st := stats self in
  set_stats {| read_count := read_count st + 1;
               success_count := success_count st;
               fail_count := fail_count st;
               last_read_time := last_read_time st |} self.
Definition incr_success_count (self : t) : t :=
  let st := stats self in
  set_stats {| read_count := read_count st;
               success_count := success_count st + 1;
               fail_count := fail_count st;
               last_read_time := last_read_time st |} self.
Definition incr_fail_count (self : t) : t :=
  let st := stats self in
  set_stats {| read_count := read_count st;
               success_count := success_count st;
               fail_count := fail_count st + 1;
               last_read_time := last_read_time st |} self.
Definition set_last_read_time (now : datetime) (self : t) : t :=
  let st := stats self in
  set_stats {| read_count := read_count st;
               success_count := success_count st;
               fail_count := fail_count st;
               last_read_time := Some now |} self.

(** One pass of the [while self.running] loop of [run], up to the
    [time.sleep] that ends it. *)
Definition run_iteration : M unit :=
  modify_self incr_read_count;;
  try_except
    (self ← get_self;
     read_success ← match sock self with
                    | None => connect
                    | Some _ => mret true
                    end;
     read_success ← (if read_success : bool
                     then self ← get_self;
                          read_all_sensors (sensors (config self))
                     else mret false);
     if read_success : bool
     then modify_self incr_success_count
     else modify_self incr_fail_count)
    (fun _ =>
       modify_self incr_fail_count;;
       disconnect);;
  now ← datetime_now;
  modify_self (set_last_read_time now).

(** The loop: each pass ends with [time.sleep(self.config.read_interval)],
    which is outside the [try]. *)
Fixpoint run_loop (cycles : nat) : M unit :=
  match cycles with
  | O => mret tt
  | S cycles' =>
      run_iteration;;
      self ← get_self;
      lift (time_sleep (read_interval (config self)));;
      run_loop cycles'
  end.

(** [run], where the loop makes [cycles] passes before it sees that [stop]
    cleared [running]. *)
Definition run (cycles : nat) : M unit :=
  modify_self (set_running true);;
  connected ← connect;
  if connected : bool then
    run_loop cycles;;
    disconnect
  else mret tt.

End Methods.

(** [stop]: the flag is cleared; the [join] only waits. *)
Definition stop (self : t) : t := set_running false self.

End IOModuleReader.

(** ** MultiIOModuleManager *)

(** [data.sort(key=lambda x: x.timestamp, reverse=True)]: a stable sort, newest
    first; readings with equal timestamps keep their order. *)
Fixpoint insert_by_timestamp (x : EnhancedSensorData)
    (sorted : list EnhancedSensorData) : list EnhancedSensorData :=
  match sorted with
  | [] => [x]
  | y :: sorted' =>
      if timestamp x <? timestamp y
      then y :: insert_by_timestamp x sorted'
      else x :: y :: sorted'
  end.

Definition sort_newest_first (data : list EnhancedSensorData)
  : list EnhancedSensorData :=
  foldr insert_by_timestamp [] data.

(** [l[-n:]] for [n >= 1] *)
Definition slice_last {A : Type} (n : nat) (l : list A) : list A :=
  skipn (length l - n) l.

Module MultiIOModuleManager.

Section Manager.

(** The state the consumer callbacks act on. *)
Variable W : Type.

(** A registered callback: it changes its own state and returns, or raises. *)
Definition consumer : Type := EnhancedSensorData -> W -> W * option exn.

(** What [on_data_received] does, in order. *)
Inductive event : Type :=
| LockAcquire
| LockRelease
| Append (d : EnhancedSensorData)
| CallbackCalled (i : nat)
| ErrorLogged (i : nat) (e : exn).

Record t : Type := mkManager {
  modules : gmap string IOModuleReader.t;
  all_data : list EnhancedSensorData;
  data_callbacks : list consumer
}.

Definition __init__ : t :=
  {| modules := ∅; all_data := []; data_callbacks := [] |}.

Definition remove_module (self : t) (module_id : string) : t :=
  match modules self !! module_id with
  | Some reader =>
      let stopped := IOModuleReader.stop reader in
      {| modules := delete module_id (<[module_id := stopped]> (modules self));
         all_data := all_data self;
         data_callbacks := data_callbacks self |}
  | None => self
  end.

(** [inner.port] on the value of a field: none of [str], [int], [float] and
    [list] has such an attribute. *)
Definition getattr_port (inner : attribute) : outcome attribute :=
  Raises AttributeError.

(** The message of the closing [logger.info] call of [add_module], whose
    fields are evaluated left to right. *)
Definition add_module_message (config : IOModuleConfig) : outcome unit :=
  _ ← IOModuleConfig_getattr config "module_id";
  _ ← IOModuleConfig_getattr config "ip";
  inner ← IOModuleConfig_getattr config "config";
  _ ← getattr_port inner;
  _ ← IOModuleConfig_getattr config "sensors";
  Returns tt.

Definition add_module (self : t) (config : IOModuleConfig) : outcome unit * t :=
  let self :=
    if bool_decide (is_Some (modules self !! module_id config))
    then remove_module self (module_id config)
    else self in
  let reader :=
    IOModuleReader.__init__ config IOModuleReader.on_data_received_of_manager in
  let self :=
    {| modules := <[module_id config := reader]> (modules self);
       all_data := all_data self;
       data_callbacks := data_callbacks self |} in
  (add_module_message config, self).

(** The callback loop of [on_data_received], from the [i]-th callback on. *)
Fixpoint call_callbacks (i : nat) (callbacks : list consumer)
    (sensor_data : EnhancedSensorData) (w : W) : W * list event :=
  match callbacks with
  | [] => (w, [])
  | callback :: callbacks' =>
      let '(w1, r) := callback sensor_data w in
      let here :=
        match r with
        | None => [CallbackCalled i]
        | Some e => [CallbackCalled i; ErrorLogged i e]   (* except Exception *)
        end in
      let '(w2, later) := call_callbacks (S i) callbacks' sensor_data w1 in
      (w2, here ++ later)
  end.

Definition on_data_received (self : t) (sensor_data : EnhancedSensorData) (w : W)
  : t * W * list event :=
  let data := all_data self ++ [sensor_data] in
  let data :=
    if (1000 <? length data)%nat then slice_last 1000 data else data in
  let self' :=
    {| modules := modules self; all_data := data;
       data_callbacks := data_callbacks self |} in
  let '(w', calls) := call_callbacks 0 (data_callbacks self) sensor_data w in
  (self', w', [LockAcquire; Append sensor_data; LockRelease] ++ calls).

Definition add_data_callback (self : t) (callback : consumer) : t :=
  {| modules := modules self; all_data := all_data self;
     data_callbacks := data_callbacks self ++ [callback] |}.

Definition get_latest_data (self : t) (sensor_id : option string)
    (sensor_type : option SensorType) : list EnhancedSensorData :=
  let data := all_data self in
  let data :=
    match sensor_id with
    | Some id =>
        if bool_decide (id = ""%string) then data
        else List.filter (fun d => bool_decide (data_sensor_id d = id)) data
    | None => data
    end in
  let data :=
    match sensor_type with
    | Some ty =>
        List.filter (fun d => bool_decide (data_sensor_type d = Member ty)) data
    | None => data
    end in
  sort_newest_first data.

(** A run of [on_data_received] calls, one per reading, in order. *)
Fixpoint ingest_all (self : t) (readings : list EnhancedSensorData) (w : W)
  : t * W :=
  match readings with
  | [] => (self, w)
  | d :: readings' =>
      let '(self', w', _) := on_data_received self d w in
      ingest_all self' readings' w'
  end.

End Manager.

End MultiIOModuleManager.

(** ** The checksum as the specification words it *)

(** CRC-16 with polynomial 0xA001 and initial value 0xFFFF, fed the bits of
    each byte one at a time, least significant bit first; the result is
    given as [[low byte; high byte]]. *)
Definition crc16_feed_bit (crc : Z) (b : bool) : Z :=
  Z.lxor (Z.shiftr crc 1) (if xorb (Z.testbit crc 0) b then 0xA001 else 0).

Definition bits_lsb_first (byte : Z) : list bool :=
  map (fun i => Z.testbit byte (Z.of_nat i)) (seq 0 8).

Definition crc16_feed_byte (crc byte : Z) : Z :=
  fold_left crc16_feed_bit (bits_lsb_first byte) crc.

Definition crc16 (data : list Z) : Z :=
  fold_left crc16_feed_byte data 0xFFFF.

Definition ComputeChecksum (data : list Z) : list Z :=
  [crc16 data mod 256; crc16 data / 256].

(** ** The decoder as the specification words it *)

(** Consecutive big-endian 16-bit values; an odd trailing byte is left out. *)
Fixpoint registers_of (payload : list Z) : list Z :=
  match payload with
  | hi :: lo :: payload' => Z.lor (Z.shiftl hi 8) lo :: registers_of payload'
  | _ => []
  end.

(** ParseResponse of the specification: the checks in the order it lists
    them.  The declared byte count is the byte after the function code (none
    declared when the frame ends there); the payload is what follows it, up
    to the checksum. *)
Definition ParseResponse (bytes : list Z) : ModbusRTUClient.rtu_response :=
  let body := slice_to_m2 bytes in
  let slave_addr := nth 0 bytes 0 in
  let func_code := nth 1 bytes 0 in
  let declared := nth 2 body 0 in
  if (length bytes <? 4)%nat
  then ModbusRTUClient.ErrorDict ModbusRTUClient.FrameTooShort
  else if negb (bool_decide (slice_from_m2 bytes = ComputeChecksum body))
  then ModbusRTUClient.ErrorDict ModbusRTUClient.ChecksumMismatch
  else if negb ((func_code =? 0x03) || (func_code =? 0x04))
  then ModbusRTUClient.ErrorDict (ModbusRTUClient.UnsupportedFunction func_code)
  else if declared =? 0
  then ModbusRTUClient.ErrorDict (ModbusRTUClient.EmptyPayload func_code)
  else ModbusRTUClient.ValidDict slave_addr func_code
         (registers_of (skipn 3 body)).

(** ** The decoder as the code makes its checks *)

(** The frame passes every check of [parse_rtu_response] and reaches the
    register loop. *)
Definition reaches_registers (response : list Z) : bool :=
  (4 <? length response)%nat
  && bool_decide (slice_from_m2 response
                  = ModbusRTUClient.modbus_crc (slice_to_m2 response))
  && ((nth 1 response 0 =? 0x03) || (nth 1 response 0 =? 0x04)).

(** ... and an odd byte is left after the last whole register. *)
Definition odd_trailing_byte (response : list Z) : bool :=
  reaches_registers response && Nat.even (length response).

(** The result of the checks, in the order of the code; the byte count
    [data[0]] is read and not used. *)
Definition checked_response (response : list Z) : ModbusRTUClient.rtu_response :=
  let slave_addr := nth 0 response 0 in
  let func_code := nth 1 response 0 in
  if (length response <? 4)%nat
  then ModbusRTUClient.ErrorDict ModbusRTUClient.FrameTooShort
  else if negb (bool_decide (slice_from_m2 response
                             = ModbusRTUClient.modbus_crc (slice_to_m2 response)))
  then ModbusRTUClient.ErrorDict ModbusRTUClient.ChecksumMismatch
  else if negb ((func_code =? 0x03) || (func_code =? 0x04))
  then ModbusRTUClient.ErrorDict (ModbusRTUClient.UnsupportedFunction func_code)
  else if (length response =? 4)%nat
  then ModbusRTUClient.ErrorDict (ModbusRTUClient.EmptyPayload func_code)
  else ModbusRTUClient.ValidDict slave_addr func_code
         (registers_of (skipn 3 (slice_to_m2 response))).

(** ** Configurations used as examples *)

(** [SensorConfig(sensor_id=id, sensor_type=ty, slave_addr=1, start_reg=0,
    reg_count=1)], the other fields at their defaults. *)
Definition sensor (id : string) (ty : SensorType) : SensorConfig :=
  {| sensor_id := id; sensor_type := Member ty; slave_addr := 1;
     start_reg := 0; reg_count := 1; func_code := 0x04;
     conversion_formula := None; sensor_unit := "" |}.

(** The same sensor with a conversion formula. *)
Definition sensor_with_formula (id : string) (ty : SensorType) (text : string)
  : SensorConfig :=
  {| sensor_id := id; sensor_type := Member ty; slave_addr := 1;
     start_reg := 0; reg_count := 1; func_code := 0x04;
     conversion_formula := Some text; sensor_unit := "" |}.

(** [IOModuleConfig(module_id=id, ip="192.168.0.102", port=8234,
    sensors=sensors)] *)
Definition io_module (id : string) (sensors : list SensorConfig)
  : IOModuleConfig :=
  {| module_id := id; ip := "192.168.0.102"; port := 8234;
     sensors := sensors; read_interval := 1.0; timeout := 5.0 |}.

(** A reading of sensor [id] with value [v]. *)
Definition reading (id : string) (v : float) (now : datetime)
  : EnhancedSensorData :=
  {| data_sensor_id := id; data_sensor_type := Member TEMPERATURE;
     value := Float v; raw_value := 0; timestamp := now; quality := "good" |}.


(** A reader that last emitted [last] for sensor [id]. *)
Definition reader_with_last (id : string) (last : float) : IOModuleReader.t :=
  IOModuleReader.set_last_values {[ id := Float last ]}
    (IOModuleReader.__init__ (io_module "temp_module_01" [sensor id TEMPERATURE])
       IOModuleReader.on_data_received_of_manager).

(** ** Observations on a reader *)

(** Whether the next call of the callback returns. *)
Definition callback_returns (e : IOModuleReader.env) : bool :=
  match IOModuleReader.callback_results e with
  | Some _ :: _ => false
  | _ => true
  end.

(** The three counters of [stats]. *)
Definition counters (self : IOModuleReader.t) : Z * Z * Z :=
  let st := IOModuleReader.stats self in
  (IOModuleReader.read_count st, IOModuleReader.success_count st,
   IOModuleReader.fail_count st).

(** The part of a pass of [run] that comes before the counters are touched:
    the connection check and the sensor loop. *)
Definition reads_of_pass (json_loads : string -> outcome formula_json)
  : IOModuleReader.M bool :=
  self ← IOModuleReader.get_self;
  read_success ← match IOModuleReader.sock self with
                 | None => IOModuleReader.connect
                 | Some _ => mret true
                 end;
  if read_success : bool
  then self ← IOModuleReader.get_self;
       IOModuleReader.read_all_sensors json_loads
         (sensors (IOModuleReader.config self))
  else mret false.

(** A computation leaves the observation [f] of the reader object as it
    found it, whether it returns or raises. *)
Definition keeps {X A : Type} (f : IOModuleReader.t -> X)
    (m : IOModuleReader.M A) : Prop :=
  forall st, f (fst (snd (m st))) = f (fst st).

(** ** A poller whose connection breaks *)

(** One pressure sensor behind one gateway. *)
Definition pressure_module : IOModuleConfig :=
  io_module "pressure_module_01" [sensor "pressure_01" PRESSURE].

(** No sensor carries a formula: [json.loads] is never reached. *)
Definition no_json : string -> outcome formula_json :=
  fun _ => Raises ValueError.

(** The request for that sensor and a well-formed answer (one register,
    value 100). *)
Definition pressure_request : list Z := [0x01; 0x04; 0x00; 0x00; 0x00; 0x01; 0x31; 0xCA].
Definition pressure_answer : list Z := [0x01; 0x04; 0x02; 0x00; 0x64; 0xB8; 0xDB].

(** The first connection succeeds.  Then, in the first pass, the send
    fails, or the receive fails, or the answer stops after two bytes and the
    timeout elapses; in the second pass the gateway answers. *)
Definition send_fails : IOModuleReader.env :=
  IOModuleReader.mkEnv [true] [Some OSError; None]
    [IOModuleReader.RecvChunk pressure_answer false] [] [10; 20; 30] 0 [].
Definition recv_fails : IOModuleReader.env :=
  IOModuleReader.mkEnv [true] [None; None]
    [IOModuleReader.RecvRaises OSError;
     IOModuleReader.RecvChunk pressure_answer false] [] [10; 20; 30] 0 [].
Definition recv_times_out : IOModuleReader.env :=
  IOModuleReader.mkEnv [true] [None; None]
    [IOModuleReader.RecvChunk [0x01; 0x04] true;
     IOModuleReader.RecvChunk pressure_answer false] [] [10; 20; 30] 0 [].

(** The reader of [pressure_module] as [run] has it when it enters the loop
    in environment [e], and after [passes] passes of the loop. *)
Definition entering_loop (e : IOModuleReader.env)
  : IOModuleReader.t * IOModuleReader.env :=
  snd (IOModuleReader.connect
         (IOModuleReader.set_running true
            (IOModuleReader.__init__ pressure_module
               IOModuleReader.on_data_received_of_manager), e)).
Definition after_passes (passes : nat) (e : IOModuleReader.env)
  : IOModuleReader.t * IOModuleReader.env :=
  snd (IOModuleReader.run_loop no_json passes (entering_loop e)).

(** What the reader did to its sockets: the trace without the callbacks. *)
Definition socket_trace (st : IOModuleReader.t * IOModuleReader.env)
  : list IOModuleReader.event :=
  List.filter
    (fun ev => match ev with IOModuleReader.EvCallback _ => false | _ => true end)
    (IOModuleReader.trace (snd st)).

(** ** Observations on a manager *)

(** The callbacks called, by position, in the order of the calls. *)
Definition called (events : list MultiIOModuleManager.event) : list nat :=
  flat_map
    (fun ev => match ev with
               | MultiIOModuleManager.CallbackCalled i => [i]
               | _ => []
               end)
    events.

(** Newest first. *)
Definition newer_or_equal (a b : EnhancedSensorData) : Prop :=
  timestamp b <= timestamp a.

(** [n] readings of one sensor, stamped 0, 1, 2, ... in that order. *)
Definition numbered (n : nat) : list EnhancedSensorData :=
  map (fun i => reading "tem_ch01" 20.0 (Z.of_nat i)) (seq 0 n).

(** ** Frames as a gateway sends them *)

(** A 16-bit value as two bytes, high byte first: the encoding
    [build_rtu_request] gives [start_reg] and [reg_count]. *)
Definition big_endian (x : Z) : list Z :=
  [Z.land (Z.shiftr x 8) 0xFF; Z.land x 0xFF].

(** The bytes that the scripted [recv] calls in [events] hand over. *)
Definition received (events : list IOModuleReader.recv_event) : list Z :=
  flat_map
    (fun ev => match ev with
               | IOModuleReader.RecvChunk chunk _ => chunk
               | IOModuleReader.RecvRaises _ => []
               end)
    events.

(** ** Relations between the state before and after a computation *)

(** Whatever the state, [R] relates it to the state the computation leaves. *)
Definition respects {A : Type}
    (R : IOModuleReader.t * IOModuleReader.env ->
         IOModuleReader.t * IOModuleReader.env -> Prop)
    (m : IOModuleReader.M A) : Prop :=
  forall st, R st (snd (m st)).

(** An event that neither closes a socket nor connects one. *)
Definition leaves_sockets (ev : IOModuleReader.event) : Prop :=
  match ev with
  | IOModuleReader.EvClose _ | IOModuleReader.EvConnect _ _ => False
  | _ => True
  end.

(** An event of the wire: a send or a receive. *)
Definition on_the_wire (ev : IOModuleReader.event) : Prop :=
  match ev with
  | IOModuleReader.EvSend _ _ _ | IOModuleReader.EvRecv _ => True
  | _ => False
  end.


(** No coming call of the callback raises. *)
Definition callbacks_return (e : IOModuleReader.env) : Prop :=
  Forall (fun r => r = None) (IOModuleReader.callback_results e).

(** What one read may do: the reader object, the sockets in existence, the
    coming connection results and callback results are as before, and only
    sends and receives were added to the trace. *)
Definition only_wire_traffic (st st' : IOModuleReader.t * IOModuleReader.env)
  : Prop :=
  fst st' = fst st
  /\ IOModuleReader.next_socket (snd st') = IOModuleReader.next_socket (snd st)
  /\ IOModuleReader.connect_results (snd st')
     = IOModuleReader.connect_results (snd st)
  /\ IOModuleReader.callback_results (snd st')
     = IOModuleReader.callback_results (snd st)
  /\ exists evs,
       IOModuleReader.trace (snd st') = IOModuleReader.trace (snd st) ++ evs
       /\ Forall on_the_wire evs.

(** What the sensor loop may do: the reader keeps its socket, no socket is
    created, closed or connected, and if no coming callback raised before,
    none does after. *)
Definition same_connection (st st' : IOModuleReader.t * IOModuleReader.env)
  : Prop :=
  IOModuleReader.sock (fst st') = IOModuleReader.sock (fst st)
  /\ IOModuleReader.next_socket (snd st') = IOModuleReader.next_socket (snd st)
  /\ (callbacks_return (snd st) -> callbacks_return (snd st'))
  /\ exists evs,
       IOModuleReader.trace (snd st') = IOModuleReader.trace (snd st) ++ evs
       /\ Forall leaves_sockets evs.

(** ** What a status query sees of a reader *)




(** ** IntegratedSensorSystem ([integrated_sensor_system.py]) *)

Module IntegratedSensorSystem.

(** The counters of [self.stats]. *)
Record Stats : Type := mkStats {
  total_read : Z;
  redis_saved : Z;
  mongo_saved : Z;
  errors : Z
}.

(** [__init__]: all counters at zero. *)
Definition no_stats : Stats :=
  {| total_read := 0; redis_saved := 0; mongo_saved := 0; errors := 0 |}.

(** [on_sensor_data].  [redis_client] and [mongo_client] say whether the
    client exists; [save_to_redis] and [save_to_mongodb] are what the two
    stores do with this reading when they are called: return, or raise. *)
Definition on_sensor_data (redis_client mongo_client : bool)
    (save_to_redis save_to_mongodb : option exn) (stats : Stats) : Stats :=
  let stats :=
    {| total_read := total_read stats + 1; redis_saved := redis_saved stats;
       mongo_saved := mongo_saved stats; errors := errors stats |} in
  let stats :=
    if redis_client then
      match save_to_redis with
      | None =>
          {| total_read := total_read stats;
             redis_saved := redis_saved stats + 1;
             mongo_saved := mongo_saved stats; errors := errors stats |}
      | Some _ =>
          {| total_read := total_read stats; redis_saved := redis_saved stats;
             mongo_saved := mongo_saved stats; errors := errors stats + 1 |}
      end
    else stats in
  if mongo_client then
    match save_to_mongodb with
    | None =>
        {| total_read := total_read stats; redis_saved := redis_saved stats;
           mongo_saved := mongo_saved stats + 1; errors := errors stats |}
    | Some _ =>
        {| total_read := total_read stats; redis_saved := redis_saved stats;
           mongo_saved := mongo_saved stats; errors := errors stats + 1 |}
    end
  else stats.

(** A run of [on_sensor_data] calls, one per pair of store results. *)
Definition on_all_sensor_data (redis_client mongo_client : bool)
    (saves : list (option exn * option exn)) (stats : Stats) : Stats :=
  fold_left
    (fun stats save =>
       on_sensor_data redis_client mongo_client (fst save) (snd save) stats)
    saves stats.

Section System.

Variable W : Type.

(** [add_module_config]: the module is added, then [on_sensor_data] is
    registered with the manager. *)
Definition add_module_config (sensor_manager : MultiIOModuleManager.t W)
    (on_sensor_data : MultiIOModuleManager.consumer W) (config : IOModuleConfig)
  : outcome unit * MultiIOModuleManager.t W :=
  match MultiIOModuleManager.add_module W sensor_manager config with
  | (Returns _, sensor_manager') =>
      (Returns tt,
       MultiIOModuleManager.add_data_callback W sensor_manager' on_sensor_data)
  | (Raises x, sensor_manager') => (Raises x, sensor_manager')
  end.

End System.

End IntegratedSensorSystem.

(** What the two filters of [get_latest_data] let through. *)
Definition wanted (sensor_id : option string) (sensor_type : option SensorType)
    (d : EnhancedSensorData) : bool :=
  match sensor_id with
  | Some id => bool_decide (id = ""%string) || bool_decide (data_sensor_id d = id)
  | None => true
  end
  && match sensor_type with
     | Some ty => bool_decide (data_sensor_type d = Member ty)
     | None => true
     end.

(** The readings of [l] stamped [stamp], in the order of [l]. *)
Definition stamped (stamp : Z) (l : list EnhancedSensorData)
  : list EnhancedSensorData :=
  List.filter (fun d => timestamp d =? stamp) l.

(** ** Values that are floats *)

Definition is_float (x : number) : bool :=
  match x with
  | Float _ => true
  | Int _ => false
  end.

(** The converter gives a float for this sensor: it has no formula, or not
    one in which both coefficients are integers. *)
Definition float_formula (json_loads : string -> outcome formula_json)
    (sensor_config : SensorConfig) : bool :=
  match conversion_formula sensor_config with
  | Some text =>
      match json_loads text with
      | Returns (Dict _ (Some (Int _)) (Some (Int _))) => false
      | _ => true
      end
  | None => true
  end.

(** Every value the reader has stored is a float. *)
Definition float_valued (self : IOModuleReader.t) : Prop :=
  map_Forall (fun _ v => is_float v = true) (IOModuleReader.last_values self).

(** The environment once the callback has been called with [sensor_data]. *)
Definition delivered (sensor_data : EnhancedSensorData)
    (e : IOModuleReader.env) : IOModuleReader.env :=
  {| IOModuleReader.connect_results := IOModuleReader.connect_results e;
     IOModuleReader.send_results := IOModuleReader.send_results e;
     IOModuleReader.recv_events := IOModuleReader.recv_events e;
     IOModuleReader.callback_results := tail (IOModuleReader.callback_results e);
     IOModuleReader.clock := IOModuleReader.clock e;
     IOModuleReader.next_socket := IOModuleReader.next_socket e;
     IOModuleReader.trace :=
       IOModuleReader.trace e ++ [IOModuleReader.EvCallback sensor_data] |}.

(** ** Linear overrides *)

(** The character that opens and closes a JSON string. *)
Definition double_quote : string :=
  String (Ascii.ascii_of_nat 34) EmptyString.

Definition json_string (text : string) : string :=
  String.append double_quote (String.append text double_quote).

(** The text of a linear override, [{"type": "linear", "a": a, "b": b}],
    with the two numbers as they are written in [a] and [b]. *)
Definition linear_formula (a b : string) : string :=
  String.concat ""
    [ "{"; json_string "type"; ": "; json_string "linear"; ", ";
      json_string "a"; ": "; a; ", "; json_string "b"; ": "; b; "}" ]%string.

(** An integer as JSON writes it, in decimal. *)
Definition decimal (z : Z) : string := NilZero.string_of_int (Z.to_int z).

(** [json.loads] on the overrides used as examples; any other text is taken
    for one it refuses ([JSONDecodeError], a [ValueError]). *)
Definition loads_linear (text : string) : outcome formula_json :=
  if String.eqb text (linear_formula "2.0" "1.0") then
    Returns (Dict (Some "linear"%string) (Some (Float 2.0)) (Some (Float 1.0)))
  else if String.eqb text (linear_formula (decimal (10 ^ 400)) "0.5") then
    Returns (Dict (Some "linear"%string) (Some (Int (10 ^ 400)))
               (Some (Float 0.5)))
  else if String.eqb text (linear_formula (decimal (10 ^ 400)) "0") then
    Returns (Dict (Some "linear"%string) (Some (Int (10 ^ 400))) (Some (Int 0)))
  else if String.eqb text (linear_formula "0" "20.05") then
    Returns (Dict (Some "linear"%string) (Some (Int 0)) (Some (Float 20.05)))
  else if String.eqb text (linear_formula "0" "20.2") then
    Returns (Dict (Some "linear"%string) (Some (Int 0)) (Some (Float 20.2)))
  else Raises ValueError.

(** ** A poller in front of a gateway that answers *)






(** * Properties *)

Import ModbusRTUClient.

(** ** The checksum *)



Lemma lxor_below_pow2 (n a b : Z) :
  0 < n -> 0 <= a < 2 ^ n -> 0 <= b < 2 ^ n -> 0 <= Z.lxor a b < 2 ^ n.
Proof.
  intros Hn Ha Hb.
  assert (Hnn : 0 <= Z.lxor a b) by (apply Z.lxor_nonneg; lia).
  split; [exact Hnn|].
  destruct (Z.eq_dec (Z.lxor a b) 0) as [->|Hne]; [lia|].
  apply Z.log2_lt_pow2; [lia|].
  pose proof (Z.log2_lxor a b ltac:(lia) ltac:(lia)) as Hlog.
  assert (Hla : Z.log2 a < n).
  { destruct (Z.eq_dec a 0) as [->|]; [simpl; lia|].
    apply Z.log2_lt_pow2; lia. }
  assert (Hlb : Z.log2 b < n).
  { destruct (Z.eq_dec b 0) as [->|]; [simpl; lia|].
    apply Z.log2_lt_pow2; lia. }
  lia.
Qed.

Lemma crc16_feed_bit_range (crc : Z) (b : bool) :
  0 <= crc < 65536 -> 0 <= crc16_feed_bit crc b < 65536.
Proof.
  intros Hc. unfold crc16_feed_bit.
  change 65536 with (2 ^ 16). apply lxor_below_pow2; [lia| |].
  - rewrite Z.shiftr_div_pow2 by lia. change (2 ^ 1) with 2.
    change (2 ^ 16) with 65536. split.
    + apply Z.div_pos; lia.
    + apply Z.div_lt_upper_bound; lia.
  - destruct (xorb _ _); change (2 ^ 16) with 65536; lia.
Qed.


Lemma fold_left_step {A B : Type} (f : A -> B -> A) (x : B) (l : list B) (a : A) :
  fold_left f (x :: l) a = fold_left f l (f a x).
Proof. reflexivity. Qed.




Lemma modbus_crc_bytes (data : list Z) :
  exists lo hi, modbus_crc data = [lo; hi] /\ 0 <= lo < 256 /\ 0 <= hi < 256.
Proof.
  unfold modbus_crc. eexists _, _. split; [reflexivity|].
  change 0xFF with (Z.ones 8). rewrite !Z.land_ones by lia.
  change (2 ^ 8) with 256.
  split; apply Z.mod_pos_bound; lia.
Qed.

Lemma land_FF_shiftr_8 (x : Z) :
  Z.land (Z.shiftr x 8) 0xFF = (x mod 65536) / 256
  /\ Z.land x 0xFF = (x mod 65536) mod 256
  /\ 0 <= (x mod 65536) / 256 < 256
  /\ 0 <= (x mod 65536) mod 256 < 256.
Proof.
  change 0xFF with (Z.ones 8). rewrite !Z.land_ones by lia.
  rewrite Z.shiftr_div_pow2 by lia. change (2 ^ 8) with 256.
  pose proof (Z.mod_pos_bound x 256 ltac:(lia)) as Hlo.
  pose proof (Z.mod_pos_bound (x / 256) 256 ltac:(lia)) as Hhi.
  assert (Hsplit : x mod 65536 = 256 * ((x / 256) mod 256) + x mod 256).
  { change 65536 with (256 * 256). rewrite Z.rem_mul_r by lia. lia. }
  assert (Hq : (x / 256) mod 256 = (x mod 65536) / 256).
  { apply (Z.div_unique _ 256 _ (x mod 256)); [lia|exact Hsplit]. }
  assert (Hr : x mod 256 = (x mod 65536) mod 256).
  { apply (Z.mod_unique _ 256 ((x / 256) mod 256)); [lia|exact Hsplit]. }
  rewrite <- Hq, <- Hr. auto.
Qed.




(** ** The decoder *)

Lemma skipn_cons_lookup {A : Type} (l rest : list A) (i : nat) (x : A) :
  skipn i l = x :: rest -> l !! i = Some x /\ skipn (S i) l = rest.
Proof.
  intros H. split.
  - rewrite <- (Nat.add_0_r i), <- lookup_drop, H. reflexivity.
  - replace (S i) with (i + 1)%nat by lia.
    rewrite <- drop_drop, H. reflexivity.
Qed.

Lemma getitem_Some {A : Type} (l : list A) (i : nat) (x : A) :
  l !! i = Some x -> getitem l i = Returns x.
Proof. intros H. unfold getitem. rewrite H. reflexivity. Qed.

Lemma getitem_None {A : Type} (l : list A) (i : nat) :
  (length l <= i)%nat -> getitem l i = Raises IndexError.
Proof.
  intros H. unfold getitem. rewrite lookup_ge_None_2 by exact H. reflexivity.
Qed.

Lemma skipn_nil_length {A : Type} (l : list A) (i : nat) :
  skipn i l = [] -> (length l <= i)%nat.
Proof.
  intros H. apply (f_equal (@length A)) in H.
  rewrite length_skipn in H. simpl in H. lia.
Qed.

Lemma list_pair_ind {A : Type} (P : list A -> Prop) :
  P [] -> (forall x, P [x]) -> (forall x y l, P l -> P (x :: y :: l)) ->
  forall l, P l.
Proof.
  intros H0 H1 H2.
  assert (Hboth : forall l, P l /\ forall x, P (x :: l)).
  { induction l as [|y l [IHl IHxl]]; split; auto. }
  intros l. apply Hboth.
Qed.

(** The register loop from index [i] on: every whole pair is decoded, and an
    odd last byte is read past the end of [data]. *)
Lemma register_loop_from (data : list Z) :
  forall rest i fuel registers,
    skipn i data = rest ->
    (length data - i <= fuel)%nat ->
    register_loop data (range_fuel fuel i (length data) 2) registers =
    if Nat.even (length rest)
    then Returns (registers ++ registers_of rest)
    else Raises IndexError.
Proof.
  intros rest. induction rest as [|x|x y rest IH] using list_pair_ind;
    intros i fuel registers Hskip Hfuel.
  - apply skipn_nil_length in Hskip.
    assert (Hr : range_fuel fuel i (length data) 2 = []).
    { destruct fuel; simpl; [reflexivity|].
      destruct (Nat.ltb_spec i (length data)); [lia|reflexivity]. }
    rewrite Hr. simpl. rewrite app_nil_r. reflexivity.
  - pose proof (f_equal (@length Z) Hskip) as Hlen.
    rewrite length_skipn in Hlen. simpl in Hlen.
    apply skipn_cons_lookup in Hskip. destruct Hskip as [Hx Hrest].
    apply skipn_nil_length in Hrest.
    destruct fuel as [|fuel]; [lia|]. simpl range_fuel.
    destruct (Nat.ltb_spec i (length data)); [|lia].
    simpl register_loop.
    destruct (Nat.ltb_spec (length data) (i + 1)); [lia|].
    rewrite (getitem_Some _ _ _ Hx), getitem_None by lia. reflexivity.
  - pose proof (f_equal (@length Z) Hskip) as Hlen.
    rewrite length_skipn in Hlen. simpl in Hlen.
    apply skipn_cons_lookup in Hskip. destruct Hskip as [Hx Hskip].
    apply skipn_cons_lookup in Hskip. destruct Hskip as [Hy Hskip].
    destruct fuel as [|fuel]; [lia|]. simpl range_fuel.
    destruct (Nat.ltb_spec i (length data)); [|lia].
    simpl register_loop.
    destruct (Nat.ltb_spec (length data) (i + 1)); [lia|].
    replace (i + 1)%nat with (S i) by lia.
    rewrite (getitem_Some _ _ _ Hx), (getitem_Some _ _ _ Hy).
    cbn [mbind outcome_bind].
    replace (S (S i)) with (i + 2)%nat in Hskip by lia.
    rewrite (IH (i + 2)%nat fuel _ Hskip) by lia.
    cbn [length Nat.even registers_of].
    destruct (Nat.even (length rest)); [|reflexivity].
    rewrite <- app_assoc. reflexivity.
Qed.

Lemma getitem_nth (l : list Z) (i : nat) :
  (i < length l)%nat -> getitem l i = Returns (nth i l 0).
Proof.
  intros H. apply getitem_Some.
  destruct (l !! i) as [x|] eqn:Hx.
  - rewrite (nth_lookup_Some _ _ 0 _ Hx). reflexivity.
  - apply lookup_ge_None_1 in Hx. lia.
Qed.

Lemma even_minus_5 (n : nat) :
  (5 <= n)%nat -> Nat.even (n - 5) = negb (Nat.even n).
Proof.
  intros H. replace n with (S (4 + (n - 5)))%nat at 2 by lia.
  rewrite Nat.even_succ, <- Nat.negb_even, Nat.even_add. simpl.
  destruct (Nat.even (n - 5)); reflexivity.
Qed.

(** The whole of [parse_rtu_response]: the checks in their order, and the
    register loop. *)
Lemma parse_rtu_response_cases (response : list Z) :
  parse_rtu_response response =
  if odd_trailing_byte response then Raises IndexError
  else Returns (checked_response response).
Proof.
  unfold parse_rtu_response, odd_trailing_byte, reaches_registers,
    checked_response.
  destruct (Nat.ltb_spec (length response) 4) as [Hshort|Hlong].
  - destruct (Nat.ltb_spec 4 (length response)); [lia|]. reflexivity.
  - rewrite (getitem_nth response 0), (getitem_nth response 1) by lia.
    cbn [mbind outcome_bind].
    destruct (bool_decide (slice_from_m2 response
                           = modbus_crc (slice_to_m2 response))).
    2:{ rewrite andb_false_r. reflexivity. }
    cbn [negb]. rewrite andb_true_r.
    destruct ((nth 1 response 0 =? 3) || (nth 1 response 0 =? 4)).
    2:{ rewrite andb_false_r. reflexivity. }
    cbn [negb]. rewrite andb_true_r.
    assert (Hdata : length (slice_2_to_m2 response) = (length response - 4)%nat).
    { unfold slice_2_to_m2. rewrite length_skipn, length_firstn. lia. }
    rewrite Hdata.
    destruct (Nat.ltb_spec (length response - 4) 1) as [Hfour|Hmore].
    + destruct (Nat.ltb_spec 4 (length response)); [lia|].
      destruct (Nat.eqb_spec (length response) 4); [|lia]. reflexivity.
    + destruct (Nat.ltb_spec 4 (length response)); [|lia].
      destruct (Nat.eqb_spec (length response) 4); [lia|].
      rewrite getitem_nth by lia. cbn [mbind outcome_bind].
      unfold range. rewrite <- Hdata.
      rewrite (register_loop_from _ _ 1%nat _ [] eq_refl) by lia.
      rewrite length_skipn, Hdata.
      replace (length response - 4 - 1)%nat with (length response - 5)%nat by lia.
      rewrite even_minus_5 by lia. cbn [andb].
      destruct (Nat.even (length response)); cbn [negb]; [reflexivity|].
      cbn [mbind outcome_bind app]. unfold slice_2_to_m2.
      rewrite drop_drop. reflexivity.
Qed.

(** C1. [parse_rtu_response] is not total: on a frame with a good checksum,
    function code 0x04 and one byte after the byte count, the register loop
    reads [data[i + 1]] past the end of [data] and raises [IndexError]; the
    guard [i + 1 > len(data)] that should stop it never holds there. *)
Theorem parse_rtu_response_odd_trailing_byte_raises :
  parse_rtu_response [0x01; 0x04; 0x01; 0xAA; 0xC1; 0xF6] = Raises IndexError.
Proof. vm_compute. reflexivity. Qed.

(** Every frame that passes the checks and leaves an odd byte raises. *)
Lemma parse_rtu_response_raises (response : list Z) :
  odd_trailing_byte response = true ->
  parse_rtu_response response = Raises IndexError.
Proof.
  intros H. rewrite parse_rtu_response_cases, H. reflexivity.
Qed.

(** C4, as stated, fails: a frame that declares zero payload bytes is
    accepted with an empty register list, where the specification's
    ParseResponse answers EmptyPayload. *)
Lemma parse_rtu_response_zero_declared_accepted :
  parse_rtu_response [0x01; 0x04; 0x00; 0x22; 0xC0] = Returns (ValidDict 1 4 [])
  /\ ParseResponse [0x01; 0x04; 0x00; 0x22; 0xC0] = ErrorDict (EmptyPayload 4)
  /\ parse_rtu_response [0x01; 0x04; 0x00; 0x22; 0xC0]
     <> Returns (ParseResponse [0x01; 0x04; 0x00; 0x22; 0xC0]).
Proof. vm_compute. repeat split. discriminate. Qed.

(** C4, amended. Unless the frame passes the checks and leaves an odd
    trailing byte, [parse_rtu_response] returns the result of its checks, made
    in this order: FrameTooShort under 4 bytes; ChecksumMismatch when the last
    two bytes differ from the checksum of the bytes before them;
    UnsupportedFunction for a function code other than 0x03 and 0x04;
    EmptyPayload when nothing lies between function code and checksum (a
    4-byte frame), whatever byte count is declared; otherwise the slave
    address, the function code and the registers decoded from the bytes after
    the byte count. *)
Theorem parse_rtu_response_checks (response : list Z) :
  odd_trailing_byte response = false ->
  parse_rtu_response response = Returns (checked_response response).
Proof.
  intros H. rewrite parse_rtu_response_cases, H. reflexivity.
Qed.

Lemma parse_rtu_response_checks_witness :
  parse_rtu_response [0x01; 0x04; 0x02; 0x00; 0x64; 0xB8; 0xDB]
  = Returns (ValidDict 1 4 [100]).
Proof.
  exact (parse_rtu_response_checks [0x01; 0x04; 0x02; 0x00; 0x64; 0xB8; 0xDB]
           eq_refl).
Defined.

(** ** The converter *)

Lemma float_of_int_exact (z : Z) :
  Z.abs z < 2 ^ 53 ->
  float_of_int z
  = Returns (if z <? 0 then (- of_uint63 (of_Z (- z)))%float
             else of_uint63 (of_Z z)).
Proof.
  intros H. unfold float_of_int.
  destruct (Z.ltb_spec (Z.abs z) (2 ^ 53)); [reflexivity|lia].
Qed.

Lemma float_of_int_register (z : Z) :
  0 <= z < 65536 -> float_of_int z = Returns (of_uint63 (of_Z z)).
Proof.
  intros H. rewrite float_of_int_exact by lia.
  destruct (Z.ltb_spec z 0); [lia|reflexivity].
Qed.

Lemma int_truediv_register (z : Z) :
  0 <= z < 65536 ->
  int_truediv z 249 = Returns (of_uint63 (of_Z z) / 249)%float.
Proof.
  intros H. unfold int_truediv. cbn [Z.eqb].
  destruct (Z.eqb_spec z 0) as [->|Hne]; [reflexivity|].
  destruct (Z.ltb_spec z 0); [lia|]. cbn [Z.ltb Z.compare xorb].
  rewrite Z.abs_eq by lia.
  destruct (Z.ltb_spec z (2 ^ 53)); [|lia].
  reflexivity.
Qed.

(** What [float] makes of integers: exact where it can be, nearest with ties
    to even beyond [2^53], and an error beyond the largest float. *)
Example float_of_int_rounds :
  float_of_int (- 5) = Returns (- 5)%float
  /\ float_of_int (2 ^ 53 + 1) = Returns 9007199254740992%float
  /\ float_of_int (2 ^ 53 + 3) = Returns 9007199254740996%float
  /\ float_of_int (2 ^ 63) = Returns 9223372036854775808%float
  /\ float_of_int (2 ^ 1024 - 2 ^ 970 - 1)
     = Returns 1.7976931348623157e308%float
  /\ float_of_int (2 ^ 1024 - 2 ^ 970) = Raises OverflowError
  /\ float_of_int (- 10 ^ 400) = Raises OverflowError.
Proof. vm_compute. repeat split; reflexivity. Qed.

(** C5, as stated, fails: a linear override is not always applied.  With
    the override [{"type": "linear", "a": 10^400, "b": 0.5}] and the raw
    value 1, [a * raw + b] raises [OverflowError] inside the [try], the
    [except] clause passes, and the converter returns the built-in pressure
    formula, [((1 / 249) - 4) * 7.5]. *)
Example apply_conversion_formula_drops_override :
  loads_linear (linear_formula (decimal (10 ^ 400)) "0.5")
  = Returns (Dict (Some "linear"%string) (Some (Int (10 ^ 400)))
               (Some (Float 0.5)))
  /\ num_mul (Int (10 ^ 400)) (Int 1) = Returns (Int (10 ^ 400))
  /\ num_add (Int (10 ^ 400)) (Float 0.5) = Raises OverflowError
  /\ IOModuleReader.apply_conversion_formula loads_linear 1
       (sensor_with_formula "pressure_01" PRESSURE
          (linear_formula (decimal (10 ^ 400)) "0.5"))
     = Returns (Float ((1 / 249 - 4) * 7.5)).
Proof. vm_compute. repeat split; reflexivity. Qed.

Section Converter.

Variable json_loads : string -> outcome formula_json.

Abbreviation apply_conversion_formula :=
  (IOModuleReader.apply_conversion_formula json_loads).

(** C5, amended. For a 16-bit raw value [raw]: with a linear override the converter
    returns [a * raw + b] ([a] defaults to 1.0 and [b] to 0.0), which is an
    integer, computed exactly, when both coefficients are integers, and a
    binary64 value otherwise; should a coefficient be an integer too large
    for a float, the override is dropped.  Without an override (no formula,
    or one that is not a linear formula), or with a dropped one, it returns
    [raw / 10.0] for a temperature sensor whose identifier starts with
    [tem_], [((raw / 249) - 4) * 7.5 - 40] for another temperature sensor,
    [((raw / 249) - 4) * 7.5] for pressure, [raw * 0.1] for wind speed and
    humidity, and [float(raw)] for anything else.  On 250, pressure gives
    [((250/249)-4)*7.5], which is -22.4698... ; on 100, the temperature
    channel [tem_ch01] gives 10.0. *)
Theorem apply_conversion_formula_cases (raw_value : Z)
    (sensor_config : SensorConfig) :
  0 <= raw_value < 65536 ->
  let raw := of_uint63 (of_Z raw_value) in
  let builtin :=
    match sensor_type sensor_config with
    | Member TEMPERATURE =>
        if String.prefix "tem_" (sensor_id sensor_config)
        then (raw / 10.0)%float
        else ((raw / 249 - 4) * 7.5 - 40)%float
    | Member PRESSURE => ((raw / 249 - 4) * 7.5)%float
    | Member WIND_SPEED => (raw * 0.1)%float
    | Member HUMIDITY => (raw * 0.1)%float
    | OtherObject => raw
    end in
  (forall text a b,
      conversion_formula sensor_config = Some text ->
      text <> ""%string ->
      json_loads text = Returns (Dict (Some "linear"%string) a b) ->
      apply_conversion_formula raw_value sensor_config
      = match default (Float 1.0) a, default (Float 0.0) b with
        | Int x, Int y => Returns (Int (x * raw_value + y))
        | Float fa, Float fb => Returns (Float (fa * raw + fb))
        | Float fa, Int y =>
            match float_of_int y with
            | Returns fb => Returns (Float (fa * raw + fb))
            | Raises _ => Returns (Float builtin)
            end
        | Int x, Float fb =>
            match float_of_int (x * raw_value) with
            | Returns product => Returns (Float (product + fb))
            | Raises _ => Returns (Float builtin)
            end
        end)
  /\ (match conversion_formula sensor_config with
      | None => True
      | Some text =>
          text = ""%string
          \/ forall a b,
               json_loads text <> Returns (Dict (Some "linear"%string) a b)
      end ->
      apply_conversion_formula raw_value sensor_config
      = Returns (Float builtin))
  /\ apply_conversion_formula 250 (sensor "pressure_01" PRESSURE)
     = Returns (Float ((250 / 249 - 4) * 7.5))
  /\ (exists v,
        apply_conversion_formula 250 (sensor "pressure_01" PRESSURE)
        = Returns (Float v)
        /\ PrimFloat.ltb (abs (v - (-22.469879518072287))) 1e-12 = true)
  /\ apply_conversion_formula 100 (sensor "tem_ch01" TEMPERATURE)
     = Returns (Float 10.0).
Proof.
  intros Hraw raw builtin.
  pose proof (float_of_int_register raw_value Hraw) as Hf. fold raw in Hf.
  pose proof (int_truediv_register raw_value Hraw) as Hd. fold raw in Hd.
  assert (Hbuiltin : forall custom,
    custom = None ->
    match custom with
    | Some v => Returns v
    | None =>
        let raw := Int raw_value in
        if bool_decide (sensor_type sensor_config = Member TEMPERATURE) then
          if String.prefix "tem_" (sensor_id sensor_config)
          then num_div raw (Float 10.0)
          else
            quotient ← num_div raw (Int 249);
            difference ← num_sub quotient (Int 4);
            product ← num_mul difference (Float 7.5);
            num_sub product (Int 40)
        else if bool_decide (sensor_type sensor_config = Member PRESSURE) then
          quotient ← num_div raw (Int 249);
          difference ← num_sub quotient (Int 4);
          num_mul difference (Float 7.5)
        else if bool_decide (sensor_type sensor_config = Member WIND_SPEED) then
          num_mul raw (Float 0.1)
        else if bool_decide (sensor_type sensor_config = Member HUMIDITY) then
          num_mul raw (Float 0.1)
        else
          f ← float_of_int raw_value;
          Returns (Float f)
    end = Returns (Float builtin)).
  { intros custom ->. cbv zeta. unfold builtin.
    destruct (sensor_type sensor_config) as [[]|];
      repeat case_bool_decide; try congruence;
      try destruct (String.prefix _ _);
      unfold num_div, num_sub, num_mul, to_float;
      rewrite ?Hf, ?Hd; reflexivity. }
  split; [|split; [|split; [|split]]].
  - intros text a b Htext Hne Hjson.
    unfold IOModuleReader.apply_conversion_formula.
    rewrite Htext, bool_decide_eq_false_2 by exact Hne.
    assert (Hcustom :
      IOModuleReader.custom_formula json_loads text raw_value
      = product ← num_mul (default (Float 1.0) a) (Int raw_value);
        v ← num_add product (default (Float 0.0) b);
        Returns (Some v)).
    { unfold IOModuleReader.custom_formula. rewrite Hjson.
      cbn [mbind outcome_bind]. rewrite bool_decide_eq_true_2 by reflexivity.
      reflexivity. }
    rewrite Hcustom.
    pose proof (Hbuiltin None eq_refl) as Hb. cbv zeta in Hb |- *.
    rewrite Hb. clear Hb.
    destruct (default (Float 1.0) a) as [x|fa],
             (default (Float 0.0) b) as [y|fb];
      unfold num_mul, num_add, to_float; rewrite ?Hf;
      cbn [mbind outcome_bind].
    + reflexivity.
    + destruct (float_of_int (x * raw_value)) as [product|err]; reflexivity.
    + destruct (float_of_int y) as [fb|err]; reflexivity.
    + reflexivity.
  - intros Hnone. unfold IOModuleReader.apply_conversion_formula.
    apply Hbuiltin. clear Hbuiltin.
    destruct (conversion_formula sensor_config) as [text|]; [|reflexivity].
    case_bool_decide; [reflexivity|].
    destruct Hnone as [Hempty|Hnot]; [contradiction|].
    unfold IOModuleReader.custom_formula.
    destruct (json_loads text) as [[|ty a b]|x] eqn:Hjson; try reflexivity.
    cbn [mbind outcome_bind].
    case_bool_decide as Hty; [|reflexivity].
    subst ty. exfalso. exact (Hnot a b eq_refl).
  - vm_compute. reflexivity.
  - eexists. split; vm_compute; reflexivity.
  - vm_compute. reflexivity.
Qed.

End Converter.

Lemma apply_conversion_formula_cases_witness :
  IOModuleReader.apply_conversion_formula loads_linear 100
    (sensor_with_formula "flow_01" PRESSURE (linear_formula "2.0" "1.0"))
  = Returns (Float 201.0).
Proof.
  exact (proj1
    (apply_conversion_formula_cases loads_linear 100
       (sensor_with_formula "flow_01" PRESSURE (linear_formula "2.0" "1.0"))
       ltac:(lia))
    (linear_formula "2.0" "1.0") (Some (Float 2.0)) (Some (Float 1.0))
    eq_refl ltac:(discriminate) eq_refl).
Defined.

(** ** The poller *)

Import IOModuleReader.

Section Keeps.

Context {X : Type} (f : t -> X).

Lemma keeps_ret {A : Type} (a : A) : keeps f (mret a).
Proof. intros st. reflexivity. Qed.

Lemma keeps_bind {A B : Type} (m : M A) (k : A -> M B) :
  keeps f m -> (forall a, keeps f (k a)) -> keeps f (m ≫= k).
Proof.
  intros Hm Hk st. unfold mbind, M_bind.
  specialize (Hm st). destruct (m st) as [[a|x] st'].
  - rewrite Hk. exact Hm.
  - exact Hm.
Qed.

Lemma keeps_try_except {A : Type} (m : M A) (handler : exn -> M A) :
  keeps f m -> (forall x, keeps f (handler x)) -> keeps f (try_except m handler).
Proof.
  intros Hm Hh st. unfold try_except.
  specialize (Hm st). destruct (m st) as [[a|x] st'].
  - exact Hm.
  - rewrite Hh. exact Hm.
Qed.

Lemma keeps_lift {A : Type} (o : outcome A) : keeps f (lift o).
Proof. intros st. reflexivity. Qed.

Lemma keeps_raise {A : Type} (x : exn) : keeps f (raise (A := A) x).
Proof. intros st. reflexivity. Qed.

Lemma keeps_get_self : keeps f get_self.
Proof. intros st. reflexivity. Qed.

Lemma keeps_modify_self (g : t -> t) :
  (forall self, f (g self) = f self) -> keeps f (modify_self g).
Proof. intros Hg st. apply Hg. Qed.

Lemma keeps_emit (ev : event) : keeps f (emit ev).
Proof. intros st. reflexivity. Qed.

Lemma keeps_socket_socket : keeps f socket_socket.
Proof. intros st. reflexivity. Qed.

Lemma keeps_socket_connect (s : nat) : keeps f (socket_connect s).
Proof. intros st. reflexivity. Qed.

Lemma keeps_socket_close (s : nat) : keeps f (socket_close s).
Proof. intros st. reflexivity. Qed.

Lemma keeps_socket_sendall (s : nat) (request : list Z) :
  keeps f (socket_sendall s request).
Proof. intros st. reflexivity. Qed.

Lemma keeps_datetime_now : keeps f datetime_now.
Proof. intros st. reflexivity. Qed.

Lemma keeps_call_data_callback (d : EnhancedSensorData) :
  keeps f (call_data_callback d).
Proof. intros st. reflexivity. Qed.

Lemma keeps_receive_response (s : nat) : keeps f (receive_response s).
Proof.
  intros st. unfold receive_response.
  destruct (recv_loop _ _) as [[r rest] calls]. reflexivity.
Qed.

End Keeps.

Create HintDb keeps.
#[local] Hint Resolve keeps_ret keeps_lift keeps_raise keeps_get_self
  keeps_emit keeps_socket_socket keeps_socket_connect keeps_socket_close
  keeps_socket_sendall keeps_datetime_now keeps_call_data_callback
  keeps_receive_response : keeps.

(** Breaks a goal [keeps f m] along the structure of [m]. *)
Ltac keeps_structure :=
  repeat first
    [ apply keeps_bind; [|intros ?]
    | apply keeps_try_except; [|intros ?]
    | solve [auto with keeps]
    | match goal with
      | |- keeps _ (match ?x with _ => _ end) => destruct x
      end ].

Section Reader.

Variable json_loads : string -> outcome formula_json.

(** [read_sensor_data] leaves the reader object alone: whatever goes wrong,
    the socket stays where it is. *)
Lemma read_sensor_data_keeps {X : Type} (f : t -> X) (sensor_config : SensorConfig) :
  keeps f (read_sensor_data json_loads sensor_config).
Proof. unfold read_sensor_data. keeps_structure. Qed.

Lemma connect_keeps_counters : keeps counters connect.
Proof.
  unfold connect. keeps_structure.
  apply keeps_modify_self. reflexivity.
Qed.

Lemma disconnect_keeps_counters : keeps counters disconnect.
Proof.
  unfold disconnect. keeps_structure.
  apply keeps_modify_self. reflexivity.
Qed.

Lemma detect_change_keeps {X : Type} (f : t -> X) sensor_config sensor_data :
  (forall m self, f (set_last_values m self) = f self) ->
  keeps f (detect_change sensor_config sensor_data).
Proof.
  intros Hf. unfold detect_change. keeps_structure.
  apply keeps_modify_self. intros self. apply Hf.
Qed.

Lemma read_all_sensors_keeps {X : Type} (f : t -> X) (sensors : list SensorConfig) :
  (forall m self, f (set_last_values m self) = f self) ->
  keeps f (read_all_sensors json_loads sensors).
Proof.
  intros Hf. induction sensors as [|sensor_config sensors IH]; cbn [read_all_sensors].
  - apply keeps_ret.
  - apply keeps_bind; [apply read_sensor_data_keeps|].
    intros [d|]; [|apply keeps_ret].
    apply keeps_bind; [apply detect_change_keeps, Hf|]. intros _. exact IH.
Qed.

Lemma reads_of_pass_keeps_counters : keeps counters (reads_of_pass json_loads).
Proof.
  unfold reads_of_pass.
  apply keeps_bind; [apply keeps_get_self|]. intros self.
  apply keeps_bind.
  { destruct (sock self); [apply keeps_ret|apply connect_keeps_counters]. }
  intros [|]; [|apply keeps_ret].
  apply keeps_bind; [apply keeps_get_self|]. intros self'.
  apply read_all_sensors_keeps. reflexivity.
Qed.

Lemma run_iteration_unfold (st : t * env) :
  run_iteration json_loads st =
  let st1 := (incr_read_count (fst st), snd st) in
  let st2 :=
    match reads_of_pass json_loads st1 with
    | (Returns true, st') => (incr_success_count (fst st'), snd st')
    | (Returns false, st') => (incr_fail_count (fst st'), snd st')
    | (Raises _, st') => snd (disconnect (incr_fail_count (fst st'), snd st'))
    end in
  let '(r, st3) := datetime_now st2 in
  match r with
  | Returns now => (Returns tt, (set_last_read_time now (fst st3), snd st3))
  | Raises x => (Raises x, st3)
  end.
Proof.
  destruct st as [self e].
  unfold run_iteration, reads_of_pass, try_except, modify_self, get_self.
  unfold mbind, M_bind, mret, M_ret. cbn [fst snd].
  destruct (sock (incr_read_count self)) as [s|].
  - destruct (read_all_sensors json_loads _ _) as [[[|]|x] [self' e']];
      cbn [fst snd]; try reflexivity.
    unfold disconnect, get_self, mbind, M_bind. cbn [fst snd].
    destruct (sock (incr_fail_count self')); reflexivity.
  - destruct (connect _) as [[[|]|x] [self' e']]; cbn [fst snd].
    + destruct (read_all_sensors json_loads _ _) as [[[|]|x] [self'' e'']];
        cbn [fst snd]; try reflexivity.
      unfold disconnect, get_self, mbind, M_bind. cbn [fst snd].
      destruct (sock (incr_fail_count self'')); reflexivity.
    + reflexivity.
    + unfold disconnect, get_self, mbind, M_bind. cbn [fst snd].
      destruct (sock (incr_fail_count self')); reflexivity.
Qed.

Lemma run_iteration_counters (self : t) (e : env) :
  let result := run_iteration json_loads (self, e) in
  let '(reads, successes, fails) := counters self in
  fst result = Returns tt
  /\ (counters (fst (snd result)) = (reads + 1, successes + 1, fails)
      \/ counters (fst (snd result)) = (reads + 1, successes, fails + 1)).
Proof.
  cbv zeta. rewrite run_iteration_unfold. cbv zeta. cbn [fst snd].
  pose proof (reads_of_pass_keeps_counters (incr_read_count self, e)) as Hk.
  cbn [fst snd] in Hk.
  destruct (reads_of_pass json_loads _) as [[[|]|x] [self' e']];
    cbn [fst snd] in *.
  - split; [reflexivity|]. left.
    unfold counters in *. cbn in *. congruence.
  - split; [reflexivity|]. right.
    unfold counters in *. cbn in *. congruence.
  - pose proof (disconnect_keeps_counters (incr_fail_count self', e')) as Hd.
    cbn [fst snd] in Hd.
    destruct (disconnect _) as [r [self'' e'']]. cbn [fst snd] in *.
    split; [reflexivity|]. right.
    unfold counters in *. cbn in *. congruence.
Qed.

Lemma run_loop_counters (cycles : nat) (self : t) (e : env) :
  let result := run_loop json_loads cycles (self, e) in
  let '(reads, successes, fails) := counters self in
  let '(reads', successes', fails') := counters (fst (snd result)) in
  successes' + fails' - reads' = successes + fails - reads.
Proof.
  revert self e. induction cycles as [|cycles IH]; intros self e.
  - cbn. destruct (counters self) as [[reads successes] fails]. lia.
  - cbv zeta. cbn [run_loop]. unfold mbind at 1, M_bind at 1.
    pose proof (run_iteration_counters self e) as Hit. cbv zeta in Hit.
    destruct (counters self) as [[reads successes] fails] eqn:Hc.
    destruct (run_iteration json_loads (self, e)) as [r [self1 e1]].
    cbn [fst snd] in Hit. destruct Hit as [-> Hit].
    specialize (IH self1 e1). cbv zeta in IH.
    unfold get_self, lift, mbind, M_bind. cbn [fst snd].
    destruct (time_sleep (read_interval (config self1))) as [[]|x];
      cbn [fst snd].
    + unfold mbind, M_bind in IH.
      destruct (counters self1) as [[reads1 successes1] fails1].
      destruct (run_loop json_loads cycles (self1, e1)) as [r [self2 e2]].
      cbn [fst snd] in *.
      destruct (counters self2) as [[reads2 successes2] fails2].
      destruct Hit as [Hit|Hit]; inversion Hit; subst; lia.
    + destruct (counters self1) as [[reads1 successes1] fails1].
      destruct Hit as [Hit|Hit]; inversion Hit; subst; lia.
Qed.

(** C10. Every pass of the read loop gets to the sleep that ends it, having
    added one to [read_count] and one to exactly one of [success_count] and
    [fail_count]; so after [run], which starts from counters at zero,
    [read_count] is the sum of [success_count] and [fail_count]. *)
Theorem run_iteration_counts (self : t) (e : env) :
  let result := run_iteration json_loads (self, e) in
  let self' := fst (snd result) in
  fst result = Returns tt
  /\ read_count (stats self') = read_count (stats self) + 1
  /\ ((success_count (stats self') = success_count (stats self) + 1
       /\ fail_count (stats self') = fail_count (stats self))
      \/ (success_count (stats self') = success_count (stats self)
          /\ fail_count (stats self') = fail_count (stats self) + 1))
  /\ (forall cycles config callback e0,
        let final :=
          fst (snd (run json_loads cycles (__init__ config callback, e0))) in
        read_count (stats final)
        = success_count (stats final) + fail_count (stats final)).
Proof.
  cbv zeta. pose proof (run_iteration_counters self e) as Hit.
  cbv zeta in Hit. unfold counters in Hit. destruct Hit as [Hr Hit].
  split; [exact Hr|].
  split; [destruct Hit as [Hit|Hit]; inversion Hit; reflexivity|].
  split; [destruct Hit as [Hit|Hit]; inversion Hit; auto|].
  intros cycles config callback e0.
  unfold run, modify_self, mbind, M_bind. cbn [fst snd].
  pose proof (connect_keeps_counters
                (set_running true (__init__ config callback), e0)) as Hc.
  cbn [fst snd] in Hc.
  destruct (connect _) as [[[|]|x] [self1 e1]]; cbn [fst snd] in *.
  - pose proof (run_loop_counters cycles self1 e1) as Hl. cbv zeta in Hl.
    rewrite Hc in Hl. cbn in Hl.
    destruct (run_loop json_loads cycles (self1, e1)) as [[[]|x] [self2 e2]];
      cbn [fst snd] in Hl |- *.
    + pose proof (disconnect_keeps_counters (self2, e2)) as Hd.
      cbn [fst snd] in Hd.
      destruct (disconnect _) as [r [self3 e3]]. cbn [fst snd] in *.
      unfold counters in Hd, Hl. injection Hd as Hd1 Hd2 Hd3. lia.
    + unfold counters in Hl. lia.
  - unfold counters in Hc. cbn in Hc. injection Hc as Hc1 Hc2 Hc3.
    cbn. lia.
  - unfold counters in Hc. cbn in Hc. injection Hc as Hc1 Hc2 Hc3.
    cbn. lia.
Qed.

(** A pass that starts connected and in which nothing escapes the sensor
    loop, be the reads good or failed, ends with the socket it started with:
    the [disconnect] of [run] is out of reach of a failed read. *)
Lemma failed_read_keeps_sock (self : t) (e : env) (s : nat) (read_success : bool) :
  sock self = Some s ->
  fst (reads_of_pass json_loads (incr_read_count self, e)) = Returns read_success ->
  sock (fst (snd (run_iteration json_loads (self, e)))) = Some s.
Proof.
  intros Hs Hret. rewrite run_iteration_unfold. cbv zeta. cbn [fst snd].
  assert (Hk : sock (fst (snd (reads_of_pass json_loads (incr_read_count self, e))))
               = Some s).
  { unfold reads_of_pass, get_self, mbind, M_bind, mret, M_ret. cbn [fst snd].
    replace (sock (incr_read_count self)) with (Some s) by (rewrite <- Hs; reflexivity).
    cbn [fst snd].
    pose proof (read_all_sensors_keeps sock
                  (sensors (config (incr_read_count self)))
                  ltac:(reflexivity) (incr_read_count self, e)) as Hr.
    cbn [fst snd] in Hr.
    destruct (read_all_sensors json_loads _ _) as [[b|x] [self' e']];
      cbn [fst snd] in *; rewrite Hr; exact Hs. }
  destruct (reads_of_pass json_loads _) as [[[|]|x] [self' e']];
    cbn [fst snd] in *; try discriminate; exact Hk.
Qed.

End Reader.

(** C2. A failed read does not close the socket.  With one sensor and a
    connection made on socket 0, a pass whose read fails (the send raises, the
    receive raises, or the answer times out) ends with [sock] still socket 0
    and one failure counted; the next pass sends on socket 0 again, with no
    [close] and no [connect] in between. *)
Theorem failed_read_leaves_socket_open :
  (sock (fst (after_passes 1 send_fails)) = Some 0%nat
   /\ counters (fst (after_passes 1 send_fails)) = (1, 0, 1)
   /\ socket_trace (after_passes 2 send_fails)
      = [EvConnect 0 true;
         EvSend 0 pressure_request false;
         EvSend 0 pressure_request true; EvRecv 0])
  /\ (sock (fst (after_passes 1 recv_fails)) = Some 0%nat
      /\ counters (fst (after_passes 1 recv_fails)) = (1, 0, 1)
      /\ socket_trace (after_passes 2 recv_fails)
         = [EvConnect 0 true;
            EvSend 0 pressure_request true; EvRecv 0;
            EvSend 0 pressure_request true; EvRecv 0])
  /\ (sock (fst (after_passes 1 recv_times_out)) = Some 0%nat
      /\ counters (fst (after_passes 1 recv_times_out)) = (1, 0, 1)
      /\ socket_trace (after_passes 2 recv_times_out)
         = [EvConnect 0 true;
            EvSend 0 pressure_request true; EvRecv 0;
            EvSend 0 pressure_request true; EvRecv 0]).
Proof. vm_compute. repeat split. Qed.

(** ** The history buffer *)

Lemma insert_by_timestamp_perm (x : EnhancedSensorData) (l : list EnhancedSensorData) :
  Permutation (insert_by_timestamp x l) (x :: l).
Proof.
  induction l as [|y l IH]; cbn [insert_by_timestamp].
  - reflexivity.
  - destruct (timestamp x <? timestamp y).
    + rewrite IH. apply perm_swap.
    + reflexivity.
Qed.

Lemma sort_newest_first_perm (l : list EnhancedSensorData) :
  Permutation (sort_newest_first l) l.
Proof.
  induction l as [|x l IH]; cbn.
  - reflexivity.
  - fold (sort_newest_first l).
    rewrite insert_by_timestamp_perm. apply perm_skip, IH.
Qed.

Lemma insert_by_timestamp_sorted (x : EnhancedSensorData) (l : list EnhancedSensorData) :
  StronglySorted newer_or_equal l ->
  StronglySorted newer_or_equal (insert_by_timestamp x l).
Proof.
  induction 1 as [|y l Hsorted IH Hy]; cbn [insert_by_timestamp].
  - repeat constructor.
  - destruct (Z.ltb_spec (timestamp x) (timestamp y)) as [Hlt|Hge].
    + constructor; [exact IH|].
      apply (Permutation_Forall (Permutation_sym (insert_by_timestamp_perm x l))).
      constructor; [unfold newer_or_equal; lia | exact Hy].
    + constructor; [constructor; assumption|].
      constructor; [exact Hge|].
      eapply Forall_impl; [exact Hy|].
      unfold newer_or_equal. intros z Hz. lia.
Qed.

Lemma sort_newest_first_sorted (l : list EnhancedSensorData) :
  StronglySorted newer_or_equal (sort_newest_first l).
Proof.
  induction l as [|x l IH]; cbn.
  - constructor.
  - apply insert_by_timestamp_sorted, IH.
Qed.

Lemma slice_last_short {A : Type} (n : nat) (l : list A) :
  (length l <= n)%nat -> slice_last n l = l.
Proof.
  intros H. unfold slice_last.
  replace (length l - n)%nat with 0%nat by lia. reflexivity.
Qed.

Lemma slice_last_length {A : Type} (n : nat) (l : list A) :
  length (slice_last n l) = Nat.min n (length l).
Proof. unfold slice_last. rewrite length_skipn. lia. Qed.

Lemma slice_last_app {A : Type} (n : nat) (l r : list A) :
  slice_last n (slice_last n l ++ r) = slice_last n (l ++ r).
Proof.
  destruct (Nat.le_gt_cases (length l) n) as [Hle|Hgt].
  - rewrite (slice_last_short n l Hle). reflexivity.
  - unfold slice_last at 1 3. rewrite !length_app, slice_last_length.
    unfold slice_last.
    replace (Nat.min n (length l) + length r - n)%nat with (length r) by lia.
    replace (length l + length r - n)%nat
      with ((length l - n) + length r)%nat by lia.
    rewrite <- drop_drop. f_equal.
    rewrite skipn_app.
    replace (length l - n - length l)%nat with 0%nat by lia. reflexivity.
Qed.

Section History.

Context {W : Type}.

Import MultiIOModuleManager.

Lemma on_data_received_all_data (self : t W) (d : EnhancedSensorData) (w : W) :
  all_data W (fst (fst (on_data_received W self d w)))
  = slice_last 1000 (all_data W self ++ [d]).
Proof.
  unfold on_data_received.
  destruct (call_callbacks W 0 _ d w) as [w' calls]. cbn [fst all_data].
  destruct (Nat.ltb_spec 1000 (length (all_data W self ++ [d]))).
  - reflexivity.
  - rewrite slice_last_short by lia. reflexivity.
Qed.

Lemma ingest_all_all_data (readings : list EnhancedSensorData) :
  forall (self : t W) (w : W),
    (length (all_data W self) <= 1000)%nat ->
    all_data W (fst (ingest_all W self readings w))
    = slice_last 1000 (all_data W self ++ readings).
Proof.
  induction readings as [|d readings IH]; intros self w Hlen; cbn [ingest_all].
  - rewrite app_nil_r, slice_last_short by exact Hlen. reflexivity.
  - pose proof (on_data_received_all_data self d w) as Hone.
    destruct (on_data_received W self d w) as [[self' w'] events].
    cbn [fst] in Hone.
    rewrite IH.
    + rewrite Hone, slice_last_app, <- app_assoc. reflexivity.
    + rewrite Hone, slice_last_length. lia.
Qed.

(** C7. Starting from an empty buffer, after any run of [on_data_received]
    calls the buffer holds at most 1000 readings, and they are the last ones
    received, in the order received: what was dropped is the oldest, whatever
    the sensors.  After 1500 readings the last 1000 are left.
    [get_latest_data] without filters returns the buffered readings sorted by
    timestamp, newest first. *)
Theorem history_buffer_keeps_newest (ms : gmap string IOModuleReader.t)
    (callbacks : list (consumer W)) (readings : list EnhancedSensorData) (w : W) :
  let fresh := {| modules := ms; all_data := []; data_callbacks := callbacks |} in
  let self := fst (ingest_all W fresh readings w) in
  let full := fst (ingest_all W fresh (numbered 1500) w) in
  (length (all_data W self) <= 1000)%nat
  /\ all_data W self = skipn (length readings - 1000) readings
  /\ (exists dropped, readings = dropped ++ all_data W self)
  /\ Permutation (get_latest_data W self None None) (all_data W self)
  /\ StronglySorted newer_or_equal (get_latest_data W self None None)
  /\ all_data W full = skipn 500 (numbered 1500)
  /\ length (all_data W full) = 1000%nat
  /\ get_latest_data W full None None = rev (skipn 500 (numbered 1500)).
Proof.
  cbv zeta.
  assert (Hall : forall rs,
    all_data W (fst (ingest_all W
      {| modules := ms; all_data := []; data_callbacks := callbacks |} rs w))
    = skipn (length rs - 1000) rs).
  { intros rs. rewrite ingest_all_all_data by (cbn; lia). reflexivity. }
  split; [|split; [|split; [|split; [|split; [|split; [|split]]]]]].
  - rewrite Hall, length_skipn. lia.
  - apply Hall.
  - exists (firstn (length readings - 1000) readings).
    rewrite Hall. symmetry. apply firstn_skipn.
  - unfold get_latest_data. apply sort_newest_first_perm.
  - unfold get_latest_data. apply sort_newest_first_sorted.
  - rewrite Hall. vm_compute. reflexivity.
  - rewrite Hall. vm_compute. reflexivity.
  - unfold get_latest_data. rewrite Hall. vm_compute. reflexivity.
Qed.

(** ** Fan-out to the consumers *)

Lemma call_callbacks_all (callbacks : list (consumer W)) :
  forall (i : nat) (d : EnhancedSensorData) (w : W),
    fst (call_callbacks W i callbacks d w)
    = fold_left (fun w callback => fst (callback d w)) callbacks w
    /\ called (snd (call_callbacks W i callbacks d w))
       = seq i (length callbacks).
Proof.
  induction callbacks as [|callback callbacks IH]; intros i d w.
  - split; reflexivity.
  - cbn [call_callbacks fold_left length seq].
    destruct (callback d w) as [w1 r] eqn:Hcall. cbn [fst].
    specialize (IH (S i) d w1).
    destruct (call_callbacks W (S i) callbacks d w1) as [w2 later].
    cbn [fst snd] in *. destruct IH as [IHw IHc].
    split; [exact IHw|].
    unfold called in *. rewrite flat_map_app, IHc.
    destruct r; reflexivity.
Qed.

Lemma last_slice_last_snoc {A : Type} (n : nat) (l : list A) (x : A) :
  (0 < n)%nat -> last (slice_last n (l ++ [x])) = Some x.
Proof.
  intros Hn. unfold slice_last. rewrite length_app. cbn [length].
  rewrite skipn_app.
  replace (length l + 1 - n - length l)%nat with 0%nat by lia.
  cbn [skipn]. apply last_snoc.
Qed.

(** C8. [on_data_received] first appends the reading to the buffer, between
    taking and releasing the lock, and then calls every registered callback,
    in registration order, once each: every callback runs on the state its
    predecessor left, whether or not that one raised, and the buffer is what
    the append made it. *)
Theorem on_data_received_isolates_callbacks (self : t W)
    (d : EnhancedSensorData) (w : W) :
  let result := on_data_received W self d w in
  let self' := fst (fst result) in
  let w' := snd (fst result) in
  let events := snd result in
  all_data W self' = slice_last 1000 (all_data W self ++ [d])
  /\ last (all_data W self') = Some d
  /\ data_callbacks W self' = data_callbacks W self
  /\ w' = fold_left (fun w callback => fst (callback d w)) (data_callbacks W self) w
  /\ firstn 3 events = [LockAcquire; Append d; LockRelease]
  /\ called (skipn 3 events) = seq 0 (length (data_callbacks W self)).
Proof.
  cbv zeta.
  pose proof (on_data_received_all_data self d w) as Hdata.
  pose proof (call_callbacks_all (data_callbacks W self) 0 d w) as [Hw Hc].
  unfold on_data_received in *.
  destruct (call_callbacks W 0 (data_callbacks W self) d w) as [w' calls].
  cbn [fst snd] in *.
  split; [exact Hdata|].
  split; [rewrite Hdata; apply last_slice_last_snoc; lia|].
  repeat split; assumption.
Qed.

(** ** Adding a gateway *)

(** C9. [add_module] raises on every configuration: the closing log message
    reads [config.config.port], and an [IOModuleConfig] has no attribute
    [config].  The exception comes after the work: the map holds a new,
    unstarted reader for the identifier, bound to [on_data_received], and
    every other entry is as before. *)
Theorem add_module_raises (self : t W) (config : IOModuleConfig) :
  let result := add_module W self config in
  let self' := snd result in
  fst result = Raises AttributeError
  /\ modules W self' !! module_id config
     = Some (IOModuleReader.__init__ config
               IOModuleReader.on_data_received_of_manager)
  /\ (let reader := IOModuleReader.__init__ config
                      IOModuleReader.on_data_received_of_manager in
      IOModuleReader.started reader = false
      /\ IOModuleReader.running reader = false
      /\ IOModuleReader.sock reader = None
      /\ IOModuleReader.data_callback reader
         = IOModuleReader.on_data_received_of_manager)
  /\ delete (module_id config) (modules W self')
     = delete (module_id config) (modules W self)
  /\ all_data W self' = all_data W self
  /\ data_callbacks W self' = data_callbacks W self.
Proof.
  cbv zeta. unfold add_module. cbn [fst snd modules all_data data_callbacks].
  split.
  { unfold add_module_message, IOModuleConfig_getattr. reflexivity. }
  split; [apply lookup_insert_eq|].
  split; [repeat split|].
  split.
  { rewrite delete_insert_eq.
    case_bool_decide; [|reflexivity].
    unfold remove_module.
    destruct (modules W self !! module_id config); [|reflexivity].
    cbn [modules]. rewrite delete_insert_eq. apply delete_delete_eq. }
  unfold remove_module.
  case_bool_decide; destruct (modules W self !! module_id config);
    split; reflexivity.
Qed.

End History.

(** * Further properties of the code *)

(** ** The codec *)

Lemma lor_shiftl_8 (hi lo : Z) :
  0 <= hi -> 0 <= lo < 256 -> Z.lor (Z.shiftl hi 8) lo = 256 * hi + lo.
Proof.
  intros Hhi Hlo.
  assert (Hdisj : Z.land (Z.shiftl hi 8) lo = 0).
  { apply Z.bits_inj'. intros n Hn. rewrite Z.land_spec, Z.bits_0.
    destruct (Z.lt_ge_cases n 8) as [Hlt|Hge].
    - rewrite Z.shiftl_spec_low by lia. reflexivity.
    - rewrite (Z.bits_above_log2 lo n), andb_false_r; [reflexivity|lia|].
      destruct (Z.eq_dec lo 0) as [->|Hne]; [simpl; lia|].
      apply Z.lt_le_trans with 8; [|exact Hge].
      apply Z.log2_lt_pow2; [lia|]. change (2 ^ 8) with 256. lia. }
  rewrite <- Z.lxor_lor by exact Hdisj.
  rewrite <- Z.add_nocarry_lxor by exact Hdisj.
  rewrite Z.shiftl_mul_pow2 by lia. change (2 ^ 8) with 256. lia.
Qed.

Lemma registers_of_big_endian (registers : list Z) :
  Forall (fun r => 0 <= r < 65536) registers ->
  registers_of (flat_map big_endian registers) = registers.
Proof.
  induction 1 as [|r registers Hr _ IH]; [reflexivity|].
  cbn [flat_map big_endian app registers_of]. rewrite IH. f_equal.
  destruct (land_FF_shiftr_8 r) as (Hh & Hl & Hhb & Hlb).
  rewrite (Z.mod_small r 65536) in Hh, Hl, Hhb, Hlb by lia.
  rewrite Hh, Hl, lor_shiftl_8 by lia.
  symmetry. apply Z.div_mod. lia.
Qed.

Lemma length_flat_map_big_endian (registers : list Z) :
  length (flat_map big_endian registers) = (2 * length registers)%nat.
Proof.
  induction registers as [|r registers IH]; [reflexivity|].
  cbn [flat_map big_endian app length]. rewrite IH. lia.
Qed.

Lemma length_modbus_crc (data : list Z) : length (modbus_crc data) = 2%nat.
Proof. reflexivity. Qed.

Lemma slices_of_framed (body crc : list Z) :
  length crc = 2%nat ->
  slice_to_m2 (body ++ crc) = body /\ slice_from_m2 (body ++ crc) = crc.
Proof.
  intros Hcrc. unfold slice_to_m2, slice_from_m2. rewrite length_app, Hcrc.
  replace (length body + 2 - 2)%nat with (length body) by lia.
  split.
  - rewrite firstn_app, Nat.sub_diag, firstn_all. cbn. apply app_nil_r.
  - rewrite skipn_app, Nat.sub_diag, skipn_all. reflexivity.
Qed.

(** X1. Round trip: a response frame made of a slave address, a function
    code 0x03 or 0x04, any byte count, 16-bit registers written high byte
    first, and the checksum of all that, decodes to that address, that
    function code and those registers. *)
Theorem parse_rtu_response_round_trip
    (slave_addr func_code byte_count : Z) (registers : list Z) :
  func_code = 0x03 \/ func_code = 0x04 ->
  Forall (fun r => 0 <= r < 65536) registers ->
  let body :=
    [slave_addr; func_code; byte_count] ++ flat_map big_endian registers in
  parse_rtu_response (body ++ modbus_crc body)
  = Returns (ValidDict slave_addr func_code registers).
Proof.
  intros Hfc Hregs body.
  destruct (slices_of_framed body (modbus_crc body) eq_refl) as [Hto Hfrom].
  assert (Hlen : length (body ++ modbus_crc body)
                 = (2 * length registers + 5)%nat).
  { rewrite length_app, length_modbus_crc. unfold body. cbn [app length].
    rewrite length_flat_map_big_endian. lia. }
  assert (Hodd : Nat.even (length (body ++ modbus_crc body)) = false).
  { rewrite Hlen. replace (2 * length registers + 5)%nat
      with (S (2 * (length registers + 2)))%nat by lia.
    rewrite Nat.even_succ, <- Nat.negb_even, Nat.even_mul. reflexivity. }
  rewrite parse_rtu_response_cases. unfold odd_trailing_byte.
  rewrite Hodd, andb_false_r. unfold checked_response.
  rewrite Hto, Hfrom, Hlen.
  destruct (Nat.ltb_spec (2 * length registers + 5) 4); [lia|].
  rewrite bool_decide_eq_true_2 by reflexivity. cbn [negb].
  assert (Hnth : nth 1 (body ++ modbus_crc body) 0 = func_code) by reflexivity.
  rewrite Hnth.
  assert (Hcode : (func_code =? 3) || (func_code =? 4) = true).
  { destruct Hfc as [->| ->]; reflexivity. }
  rewrite Hcode. cbn [negb].
  destruct (Nat.eqb_spec (2 * length registers + 5) 4); [lia|].
  unfold body. cbn [app skipn nth]. rewrite skipn_O.
  rewrite registers_of_big_endian by exact Hregs. reflexivity.
Qed.

Lemma parse_rtu_response_round_trip_witness :
  parse_rtu_response
    ([1; 4; 4] ++ flat_map big_endian [250; 65535]
     ++ modbus_crc ([1; 4; 4] ++ flat_map big_endian [250; 65535]))
  = Returns (ValidDict 1 4 [250; 65535]).
Proof.
  exact (parse_rtu_response_round_trip 1 4 4 [250; 65535]
           (or_intror eq_refl)
           ltac:(repeat constructor; lia)).
Defined.

(** *** One corrupted byte never passes the checksum *)

Lemma crc_bit_shift (crc : Z) :
  crc_bit crc
  = Z.lxor (Z.shiftr crc 1) (if Z.testbit crc 0 then 0xA001 else 0).
Proof.
  unfold crc_bit.
  assert (Hbit : negb (Z.land crc 1 =? 0) = Z.testbit crc 0).
  { change 1 with (Z.ones 1). rewrite Z.land_ones by lia.
    change (2 ^ 1) with 2. rewrite <- Z.bit0_mod.
    destruct (Z.testbit crc 0); reflexivity. }
  change 0x0001 with 1. rewrite Hbit.
  destruct (Z.testbit crc 0); [reflexivity|].
  rewrite Z.lxor_0_r. reflexivity.
Qed.

(** The shift step is linear for exclusive or. *)
Lemma crc_bit_lxor (a b : Z) :
  crc_bit (Z.lxor a b) = Z.lxor (crc_bit a) (crc_bit b).
Proof.
  rewrite !crc_bit_shift, Z.shiftr_lxor, Z.lxor_spec.
  apply Z.bits_inj'. intros n Hn. rewrite !Z.lxor_spec.
  destruct (Z.testbit a 0), (Z.testbit b 0); cbn [xorb];
    rewrite ?Z.bits_0;
    destruct (Z.testbit (Z.shiftr a 1) n), (Z.testbit (Z.shiftr b 1) n),
      (Z.testbit 0xA001 n); reflexivity.
Qed.

Lemma crc_bit_range (crc : Z) : 0 <= crc < 65536 -> 0 <= crc_bit crc < 65536.
Proof.
  intros Hc. rewrite crc_bit_shift.
  pose proof (crc16_feed_bit_range crc false Hc) as Hr.
  unfold crc16_feed_bit in Hr. rewrite xorb_false_r in Hr. exact Hr.
Qed.

(** ... and sends nothing but zero to zero. *)
Lemma crc_bit_eq_0 (d : Z) : 0 <= d < 65536 -> crc_bit d = 0 -> d = 0.
Proof.
  intros Hd H0. rewrite crc_bit_shift in H0. apply Z.lxor_eq in H0.
  rewrite <- Z.div2_spec in H0.
  pose proof (Z.div2_odd d) as Hdiv. rewrite <- Z.bit0_odd in Hdiv.
  destruct (Z.testbit d 0); cbn [Z.b2z] in Hdiv; lia.
Qed.

Lemma iter_crc_bit_lxor (n : nat) (a b : Z) :
  Nat.iter n crc_bit (Z.lxor a b)
  = Z.lxor (Nat.iter n crc_bit a) (Nat.iter n crc_bit b).
Proof.
  induction n as [|n IH]; [reflexivity|].
  rewrite !Nat.iter_succ, IH. apply crc_bit_lxor.
Qed.

Lemma iter_crc_bit_range (n : nat) (crc : Z) :
  0 <= crc < 65536 -> 0 <= Nat.iter n crc_bit crc < 65536.
Proof.
  intros Hc. induction n as [|n IH]; [exact Hc|].
  rewrite Nat.iter_succ. apply crc_bit_range, IH.
Qed.

Lemma iter_crc_bit_eq_0 (n : nat) (d : Z) :
  0 <= d < 65536 -> Nat.iter n crc_bit d = 0 -> d = 0.
Proof.
  intros Hd. induction n as [|n IH]; [auto|].
  rewrite Nat.iter_succ. intros H0. apply IH.
  apply crc_bit_eq_0; [apply iter_crc_bit_range, Hd|exact H0].
Qed.

Lemma crc_byte_range (crc byte : Z) :
  0 <= crc < 65536 -> 0 <= byte < 256 -> 0 <= crc_byte crc byte < 65536.
Proof.
  intros Hc Hb. unfold crc_byte. apply iter_crc_bit_range.
  change 65536 with (2 ^ 16). apply lxor_below_pow2; [lia| |];
    change (2 ^ 16) with 65536; lia.
Qed.

Lemma fold_crc_byte_range (data : list Z) (crc : Z) :
  Forall (fun byte => 0 <= byte < 256) data ->
  0 <= crc < 65536 -> 0 <= fold_left crc_byte data crc < 65536.
Proof.
  intros Hdata. revert crc.
  induction Hdata as [|byte data Hb _ IH]; intros crc Hc; [exact Hc|].
  rewrite fold_left_step. apply IH, crc_byte_range; assumption.
Qed.

(** Two registers that differ still differ after the same byte. *)
Lemma crc_byte_differ (crc1 crc2 byte : Z) :
  0 <= crc1 < 65536 -> 0 <= crc2 < 65536 ->
  crc_byte crc1 byte = crc_byte crc2 byte -> crc1 = crc2.
Proof.
  intros H1 H2 Heq. unfold crc_byte in Heq.
  apply Z.lxor_eq.
  apply (iter_crc_bit_eq_0 8).
  { change 65536 with (2 ^ 16). apply lxor_below_pow2; [lia| |];
      change (2 ^ 16) with 65536; lia. }
  replace (Z.lxor crc1 crc2)
    with (Z.lxor (Z.lxor crc1 byte) (Z.lxor crc2 byte)).
  - rewrite iter_crc_bit_lxor, Heq. apply Z.lxor_nilpotent.
  - rewrite Z.lxor_assoc, (Z.lxor_comm byte), Z.lxor_assoc,
      Z.lxor_nilpotent, Z.lxor_0_r. reflexivity.
Qed.

Lemma fold_crc_byte_differ (data : list Z) (crc1 crc2 : Z) :
  Forall (fun byte => 0 <= byte < 256) data ->
  0 <= crc1 < 65536 -> 0 <= crc2 < 65536 ->
  fold_left crc_byte data crc1 = fold_left crc_byte data crc2 -> crc1 = crc2.
Proof.
  intros Hdata. revert crc1 crc2.
  induction Hdata as [|byte data Hb _ IH]; intros crc1 crc2 H1 H2 Heq;
    [exact Heq|].
  rewrite !fold_left_step in Heq.
  apply IH in Heq; [|apply crc_byte_range; assumption..].
  exact (crc_byte_differ _ _ _ H1 H2 Heq).
Qed.

Lemma modbus_crc_one_byte (before after : list Z) (byte byte' : Z) :
  Forall (fun b => 0 <= b < 256) before ->
  Forall (fun b => 0 <= b < 256) after ->
  0 <= byte < 256 -> 0 <= byte' < 256 ->
  modbus_crc (before ++ byte :: after) = modbus_crc (before ++ byte' :: after) ->
  byte = byte'.
Proof.
  intros Hbefore Hafter Hb Hb' Heq. unfold modbus_crc in Heq.
  rewrite !fold_left_app, !fold_left_step in Heq.
  set (crc := fold_left crc_byte before 65535) in *.
  assert (Hcrc : 0 <= crc < 65536)
    by (apply fold_crc_byte_range; [exact Hbefore|lia]).
  set (f1 := fold_left crc_byte after (crc_byte crc byte)) in *.
  set (f2 := fold_left crc_byte after (crc_byte crc byte')) in *.
  assert (H1 : 0 <= f1 < 65536)
    by (apply fold_crc_byte_range, crc_byte_range; assumption).
  assert (H2 : 0 <= f2 < 65536)
    by (apply fold_crc_byte_range, crc_byte_range; assumption).
  assert (Hf : f1 = f2).
  { destruct (land_FF_shiftr_8 f1) as (Hh1 & Hl1 & _).
    destruct (land_FF_shiftr_8 f2) as (Hh2 & Hl2 & _).
    rewrite (Z.mod_small f1 65536) in Hh1, Hl1 by lia.
    rewrite (Z.mod_small f2 65536) in Hh2, Hl2 by lia.
    injection Heq as Hlo Hhi. rewrite Hl1, Hl2 in Hlo. rewrite Hh1, Hh2 in Hhi.
    rewrite (Z.div_mod f1 256), (Z.div_mod f2 256) by lia. congruence. }
  unfold f1, f2 in Hf.
  apply fold_crc_byte_differ in Hf;
    [|exact Hafter|apply crc_byte_range; assumption..].
  unfold crc_byte in Hf.
  assert (Hx : Z.lxor crc byte = Z.lxor crc byte').
  { apply Z.lxor_eq. apply (iter_crc_bit_eq_0 8).
    - change 65536 with (2 ^ 16). apply lxor_below_pow2; [lia| |];
        apply lxor_below_pow2; change (2 ^ 16) with 65536; lia.
    - rewrite iter_crc_bit_lxor, Hf. apply Z.lxor_nilpotent. }
  apply (f_equal (Z.lxor crc)) in Hx.
  rewrite <- !Z.lxor_assoc, Z.lxor_nilpotent, !Z.lxor_0_l in Hx. exact Hx.
Qed.

(** X2. A frame of bytes in which one byte before the checksum was replaced
    by another is rejected with the checksum error, whatever else it holds:
    the checksum of the frame as sent no longer matches. *)
Theorem parse_rtu_response_detects_corrupted_byte
    (before after : list Z) (byte byte' : Z) :
  Forall (fun b => 0 <= b < 256) before ->
  Forall (fun b => 0 <= b < 256) after ->
  0 <= byte < 256 -> 0 <= byte' < 256 ->
  byte <> byte' ->
  (1 <= length before + length after)%nat ->
  parse_rtu_response
    ((before ++ byte' :: after) ++ modbus_crc (before ++ byte :: after))
  = Returns (ErrorDict ChecksumMismatch).
Proof.
  intros Hbefore Hafter Hb Hb' Hne Hlen.
  set (sent := before ++ byte :: after).
  set (got := before ++ byte' :: after).
  destruct (slices_of_framed got (modbus_crc sent) eq_refl) as [Hto Hfrom].
  assert (Hl : length (got ++ modbus_crc sent)
               = (length before + length after + 3)%nat).
  { rewrite length_app, length_modbus_crc. unfold got.
    rewrite length_app. cbn [length]. lia. }
  rewrite parse_rtu_response_cases.
  assert (Hbad : bool_decide (slice_from_m2 (got ++ modbus_crc sent)
                              = modbus_crc (slice_to_m2 (got ++ modbus_crc sent)))
                 = false).
  { rewrite Hto, Hfrom. apply bool_decide_eq_false_2. intros Heq.
    apply Hne. apply (modbus_crc_one_byte before after); assumption. }
  unfold odd_trailing_byte, reaches_registers, checked_response.
  rewrite Hbad, Hl, andb_false_r.
  destruct (Nat.ltb_spec (length before + length after + 3) 4); [lia|].
  reflexivity.
Qed.

Lemma parse_rtu_response_detects_corrupted_byte_witness :
  parse_rtu_response
    (([0x01; 0x04; 0x02] ++ 0x01 :: [0x64])
     ++ modbus_crc ([0x01; 0x04; 0x02] ++ 0x00 :: [0x64]))
  = Returns (ErrorDict ChecksumMismatch).
Proof.
  exact (parse_rtu_response_detects_corrupted_byte
           [0x01; 0x04; 0x02] [0x64] 0x00 0x01
           ltac:(repeat constructor; lia) ltac:(repeat constructor; lia)
           ltac:(lia) ltac:(lia) ltac:(lia) ltac:(cbn; lia)).
Defined.

(** The six bytes that [build_rtu_request] puts before the checksum. *)
Lemma build_rtu_request_returns (slave_addr start_reg reg_count func_code : Z) :
  0 <= slave_addr < 256 -> 0 <= func_code < 256 ->
  let body := [slave_addr; func_code] ++ big_endian start_reg
              ++ big_endian reg_count in
  build_rtu_request slave_addr start_reg reg_count func_code
  = Returns (body ++ modbus_crc body)
  /\ Forall (fun b => 0 <= b < 256) (body ++ modbus_crc body).
Proof.
  intros Hs Hf body.
  destruct (land_FF_shiftr_8 start_reg) as (Hrh & Hrl & Hrhb & Hrlb).
  destruct (land_FF_shiftr_8 reg_count) as (Hch & Hcl & Hchb & Hclb).
  assert (Hall : Forall (fun b => 0 <= b < 256) (body ++ modbus_crc body)).
  { apply Forall_app. split.
    - unfold body, big_endian. cbn [app]. repeat constructor; lia.
    - destruct (modbus_crc_bytes body) as (lo & hi & Hcrc & Hlo & Hhi).
      rewrite Hcrc. repeat constructor; lia. }
  split; [|exact Hall].
  unfold build_rtu_request, bytearray.
  change (forallb is_byte (body ++ modbus_crc body)) with
    (forallb is_byte (body ++ modbus_crc body)).
  assert (Htrue : forallb is_byte (body ++ modbus_crc body) = true).
  { apply forallb_forall. intros x Hx. unfold is_byte.
    rewrite Forall_forall in Hall.
    specialize (Hall x ltac:(apply list_elem_of_In; exact Hx)). lia. }
  unfold body, big_endian in Htrue |- *. cbn [app] in Htrue |- *.
  rewrite Htrue. reflexivity.
Qed.

(** X3. [build_rtu_request] fails in one way only: it raises [ValueError]
    exactly when the slave address or the function code is not a byte.  The
    start register and the register count never make it fail, however large
    or negative; a frame it returns has 8 bytes, all in 0..255. *)
Theorem build_rtu_request_raises_iff
    (slave_addr start_reg reg_count func_code : Z) :
  match build_rtu_request slave_addr start_reg reg_count func_code with
  | Returns frame =>
      (0 <= slave_addr < 256 /\ 0 <= func_code < 256)
      /\ length frame = 8%nat
      /\ Forall (fun b => 0 <= b < 256) frame
  | Raises e =>
      e = ValueError /\ ~ (0 <= slave_addr < 256 /\ 0 <= func_code < 256)
  end.
Proof.
  destruct (build_rtu_request slave_addr start_reg reg_count func_code)
    as [frame|e] eqn:Hbuild.
  - unfold build_rtu_request, bytearray in Hbuild.
    destruct (forallb is_byte _) eqn:Hall; [|discriminate].
    injection Hbuild as <-.
    rewrite forallb_forall in Hall.
    assert (Hbytes : forall x,
      In x ([slave_addr; func_code;
             Z.land (Z.shiftr start_reg 8) 0xFF; Z.land start_reg 0xFF;
             Z.land (Z.shiftr reg_count 8) 0xFF; Z.land reg_count 0xFF]
            ++ modbus_crc
                 [slave_addr; func_code;
                  Z.land (Z.shiftr start_reg 8) 0xFF; Z.land start_reg 0xFF;
                  Z.land (Z.shiftr reg_count 8) 0xFF; Z.land reg_count 0xFF]) ->
      0 <= x < 256).
    { intros x Hx. apply Hall in Hx. unfold is_byte in Hx. lia. }
    split; [|split].
    + split; apply Hbytes; cbn; auto.
    + reflexivity.
    + apply Forall_forall. intros x Hx. apply Hbytes.
      apply list_elem_of_In. exact Hx.
  - split.
    + unfold build_rtu_request, bytearray in Hbuild.
      destruct (forallb is_byte _); [discriminate|congruence].
    + intros [Hs Hf].
      destruct (build_rtu_request_returns slave_addr start_reg reg_count
                  func_code Hs Hf) as [Hret _].
      congruence.
Qed.

(** X4. A request is not a response: the frame [build_rtu_request] returns,
    handed to [parse_rtu_response] (as when a gateway echoes it), passes the
    checksum and then makes the register loop raise [IndexError] for function
    codes 0x03 and 0x04; for any other function code it is refused as
    unsupported. *)
Theorem parse_rtu_response_of_request
    (slave_addr start_reg reg_count func_code : Z) :
  0 <= slave_addr < 256 ->
  0 <= func_code < 256 ->
  (frame ← build_rtu_request slave_addr start_reg reg_count func_code;
   parse_rtu_response frame)
  = if (func_code =? 0x03) || (func_code =? 0x04)
    then Raises IndexError
    else Returns (ErrorDict (UnsupportedFunction func_code)).
Proof.
  intros Hs Hf.
  destruct (build_rtu_request_returns slave_addr start_reg reg_count
              func_code Hs Hf) as [Hret _].
  cbv zeta in Hret. rewrite Hret. cbn [mbind outcome_bind].
  set (body := [slave_addr; func_code] ++ big_endian start_reg
               ++ big_endian reg_count).
  destruct (slices_of_framed body (modbus_crc body) eq_refl) as [Hto Hfrom].
  rewrite parse_rtu_response_cases.
  unfold odd_trailing_byte, reaches_registers, checked_response.
  rewrite Hto, Hfrom, bool_decide_eq_true_2 by reflexivity.
  change (length (body ++ modbus_crc body)) with 8%nat.
  change (nth 1 (body ++ modbus_crc body) 0) with func_code.
  cbn [Nat.ltb Nat.leb Nat.even andb negb Nat.eqb].
  destruct ((func_code =? 3) || (func_code =? 4)); reflexivity.
Qed.

Lemma parse_rtu_response_of_request_witness :
  (frame ← build_rtu_request 1 0 1 4; parse_rtu_response frame)
  = Raises IndexError.
Proof.
  exact (parse_rtu_response_of_request 1 0 1 4 ltac:(lia) ltac:(lia)).
Defined.

Lemma getitem_nth_lookup (l : list Z) (i : nat) :
  (i < length l)%nat -> l !! i = Some (nth i l 0).
Proof.
  intros H. destruct (l !! i) as [x|] eqn:Hx.
  - rewrite (nth_lookup_Some _ _ 0 _ Hx). reflexivity.
  - apply lookup_ge_None_1 in Hx. lia.
Qed.

Lemma registers_of_range (payload : list Z) :
  Forall (fun b => 0 <= b < 256) payload ->
  Forall (fun r => 0 <= r < 65536) (registers_of payload)
  /\ length (registers_of payload) = (length payload / 2)%nat.
Proof.
  induction payload as [| |hi lo payload IH] using list_pair_ind; intros Hp.
  - split; [constructor|reflexivity].
  - split; [constructor|reflexivity].
  - apply Forall_cons in Hp. destruct Hp as [Hhi Hp].
    apply Forall_cons in Hp. destruct Hp as [Hlo Hp].
    destruct (IH Hp) as [IHr IHl]. cbn [registers_of length]. split.
    + constructor; [|exact IHr]. rewrite lor_shiftl_8 by lia. lia.
    + rewrite IHl.
      replace (S (S (length payload))) with (1 * 2 + length payload)%nat by lia.
      rewrite Nat.div_add_l by lia. lia.
Qed.

(** X5. Whenever [parse_rtu_response] accepts a frame of bytes, the slave
    address and function code it returns are the first two bytes, every
    register is a 16-bit value, and the number of registers is fixed by the
    frame length alone ((length - 5) / 2): the declared byte count plays no
    part. *)
Theorem parse_rtu_response_registers (response : list Z)
    (slave_addr func_code : Z) (registers : list Z) :
  Forall (fun b => 0 <= b < 256) response ->
  parse_rtu_response response = Returns (ValidDict slave_addr func_code registers) ->
  response !! 0%nat = Some slave_addr
  /\ response !! 1%nat = Some func_code
  /\ (func_code = 0x03 \/ func_code = 0x04)
  /\ Forall (fun r => 0 <= r < 65536) registers
  /\ length response = (2 * length registers + 5)%nat.
Proof.
  intros Hbytes Hparse. rewrite parse_rtu_response_cases in Hparse.
  unfold odd_trailing_byte, reaches_registers, checked_response in Hparse.
  destruct (Nat.ltb_spec 4 (length response)) as [Hlong|Hshort];
    destruct (bool_decide _);
    destruct ((nth 1 response 0 =? 3) || (nth 1 response 0 =? 4)) eqn:Hcode;
    destruct (Nat.even (length response)) eqn:Heven;
    destruct (Nat.ltb_spec (length response) 4);
    destruct (Nat.eqb_spec (length response) 4);
    cbn [andb negb] in Hparse; try discriminate; try lia.
  injection Hparse as <- <- <-.
  assert (Hpayload : Forall (fun b => 0 <= b < 256)
                       (skipn 3 (slice_to_m2 response))).
  { unfold slice_to_m2. apply Forall_drop, Forall_take, Hbytes. }
  destruct (registers_of_range _ Hpayload) as [Hr Hl].
  assert (Hplen : length (skipn 3 (slice_to_m2 response))
                  = (length response - 5)%nat).
  { unfold slice_to_m2. rewrite length_skipn, length_firstn. lia. }
  rewrite Hplen in Hl.
  split; [|split; [|split; [|split]]].
  - apply getitem_nth_lookup. lia.
  - apply getitem_nth_lookup. lia.
  - apply orb_true_iff in Hcode. lia.
  - exact Hr.
  - rewrite Hl.
    assert (Hodd : Nat.Odd (length response)).
    { apply Nat.odd_spec. rewrite <- Nat.negb_even, Heven. reflexivity. }
    destruct Hodd as [k Hk].
    replace (length response - 5)%nat with ((k - 2) * 2)%nat by lia.
    rewrite Nat.div_mul by lia. lia.
Qed.

Lemma parse_rtu_response_registers_witness :
  length [0x01; 0x04; 0x02; 0x00; 0x64; 0xB8; 0xDB] = (2 * length [100] + 5)%nat.
Proof.
  exact (proj2 (proj2 (proj2 (proj2
    (parse_rtu_response_registers
       [0x01; 0x04; 0x02; 0x00; 0x64; 0xB8; 0xDB] 1 4 [100]
       ltac:(repeat constructor; lia) eq_refl))))).
Defined.

(** ** The receive loop *)

(** X6. When the receive loop of [read_sensor_data] returns, it returns all
    the bytes received so far, and they are at least five and at least as
    many as the third byte announces (3 + data_len + 2); a shorter answer is
    never handed to the decoder. *)
Theorem recv_loop_returns_whole_frame (script : list recv_event) :
  forall (response_bytes : list Z) (frame : list Z)
         (rest : list recv_event) (calls : nat),
    recv_loop script response_bytes = (Returns frame, rest, calls) ->
    (5 <= length frame)%nat
    /\ (exists data_len,
          frame !! 2%nat = Some data_len
          /\ 1 + 1 + 1 + data_len + 2 <= Z.of_nat (length frame))
    /\ exists used,
         script = used ++ rest
         /\ length used = calls
         /\ frame = response_bytes ++ received used.
Proof.
  induction script as [|[chunk timed_out|x] script IH];
    intros response_bytes frame rest calls Hloop; cbn [recv_loop] in Hloop;
    try discriminate.
  set (bytes := if bool_decide (chunk = []) then response_bytes
                else response_bytes ++ chunk) in *.
  assert (Hbytes : bytes = response_bytes ++ chunk).
  { unfold bytes. case_bool_decide as Hc; [|reflexivity].
    rewrite Hc, app_nil_r. reflexivity. }
  destruct (negb (bool_decide (chunk = [])) && (5 <=? length bytes)%nat
            && match bytes !! 2%nat with
               | Some data_len =>
                   1 + 1 + 1 + data_len + 2 <=? Z.of_nat (length bytes)
               | None => false
               end) eqn:Hcomplete.
  - injection Hloop as <- <- <-.
    apply andb_true_iff in Hcomplete. destruct Hcomplete as [Hc Hlen].
    apply andb_true_iff in Hc. destruct Hc as [_ H5].
    apply Nat.leb_le in H5.
    split; [exact H5|]. split.
    + destruct (bytes !! 2%nat) as [data_len|]; [|discriminate].
      exists data_len. split; [reflexivity|]. apply Z.leb_le. exact Hlen.
    + exists [RecvChunk chunk timed_out]. cbn [app length received flat_map].
      rewrite app_nil_r. auto.
  - destruct timed_out; [discriminate|].
    destruct (recv_loop script bytes) as [[r rest0] calls0] eqn:Hrec.
    injection Hloop as -> -> <-.
    destruct (IH _ _ _ _ Hrec) as (H5 & Hlen & used & Hscript & Hused & Hframe).
    split; [exact H5|]. split; [exact Hlen|].
    exists (RecvChunk chunk false :: used).
    cbn [app length received flat_map]. fold (received used).
    rewrite Hscript, Hused, Hframe, Hbytes, <- app_assoc. auto.
Qed.

Lemma recv_loop_returns_whole_frame_witness :
  (5 <= length pressure_answer)%nat.
Proof.
  exact (proj1 (recv_loop_returns_whole_frame
    [RecvChunk [0x01; 0x04; 0x02] false; RecvChunk [] false;
     RecvChunk [0x00; 0x64; 0xB8; 0xDB] false; RecvChunk [0x01] false]
    [] pressure_answer [RecvChunk [0x01] false] 3 eq_refl)).
Defined.

(** ** The poller and its socket *)

Section Respects.

Context (R : t * env -> t * env -> Prop).
Hypothesis R_refl : forall st, R st st.
Hypothesis R_trans : forall a b c, R a b -> R b c -> R a c.

Lemma respects_ret {A : Type} (a : A) : respects R (mret a).
Proof. intros st. apply R_refl. Qed.

Lemma respects_lift {A : Type} (o : outcome A) : respects R (lift o).
Proof. intros st. apply R_refl. Qed.

Lemma respects_raise {A : Type} (x : exn) : respects R (raise (A := A) x).
Proof. intros st. apply R_refl. Qed.

Lemma respects_get_self : respects R get_self.
Proof. intros st. apply R_refl. Qed.

Lemma respects_bind {A B : Type} (m : M A) (k : A -> M B) :
  respects R m -> (forall a, respects R (k a)) -> respects R (m ≫= k).
Proof.
  intros Hm Hk st. unfold mbind, M_bind.
  specialize (Hm st). destruct (m st) as [[a|x] st']; cbn [snd] in *.
  - eapply R_trans; [exact Hm|apply Hk].
  - exact Hm.
Qed.

Lemma respects_try_except {A : Type} (m : M A) (handler : exn -> M A) :
  respects R m -> (forall x, respects R (handler x)) ->
  respects R (try_except m handler).
Proof.
  intros Hm Hh st. unfold try_except.
  specialize (Hm st). destruct (m st) as [[a|x] st']; cbn [snd] in *.
  - exact Hm.
  - eapply R_trans; [exact Hm|apply Hh].
Qed.

End Respects.

Lemma only_wire_traffic_refl st : only_wire_traffic st st.
Proof.
  repeat split. exists []. rewrite app_nil_r. split; [reflexivity|constructor].
Qed.

Lemma only_wire_traffic_trans a b c :
  only_wire_traffic a b -> only_wire_traffic b c -> only_wire_traffic a c.
Proof.
  intros (Hs1 & Hn1 & Hc1 & Hk1 & evs1 & Ht1 & Hf1)
         (Hs2 & Hn2 & Hc2 & Hk2 & evs2 & Ht2 & Hf2).
  repeat split; try congruence.
  exists (evs1 ++ evs2). split.
  - rewrite Ht2, Ht1, app_assoc. reflexivity.
  - apply Forall_app. auto.
Qed.

Lemma same_connection_refl st : same_connection st st.
Proof.
  repeat split; auto. exists []. rewrite app_nil_r.
  split; [reflexivity|constructor].
Qed.

Lemma same_connection_trans a b c :
  same_connection a b -> same_connection b c -> same_connection a c.
Proof.
  intros (Hs1 & Hn1 & Hk1 & evs1 & Ht1 & Hf1)
         (Hs2 & Hn2 & Hk2 & evs2 & Ht2 & Hf2).
  repeat split; try congruence; auto.
  exists (evs1 ++ evs2). split.
  - rewrite Ht2, Ht1, app_assoc. reflexivity.
  - apply Forall_app. auto.
Qed.

Lemma only_wire_traffic_same_connection a b :
  only_wire_traffic a b -> same_connection a b.
Proof.
  intros (Hs & Hn & Hc & Hk & evs & Ht & Hf).
  repeat split; [congruence|exact Hn| |].
  - unfold callbacks_return. rewrite Hk. auto.
  - exists evs. split; [exact Ht|].
    eapply Forall_impl; [exact Hf|]. intros [] H; cbn in *; auto.
Qed.

Lemma socket_sendall_wire (s : nat) (request : list Z) :
  respects only_wire_traffic (socket_sendall s request).
Proof.
  intros st. repeat split. eexists. split; [reflexivity|].
  repeat constructor.
Qed.

Lemma receive_response_wire (s : nat) :
  respects only_wire_traffic (receive_response s).
Proof.
  intros st. unfold receive_response.
  destruct (recv_loop _ _) as [[r rest] calls]. repeat split.
  eexists. split; [reflexivity|]. apply Forall_forall.
  intros ev Hev. apply list_elem_of_In, repeat_spec in Hev. subst ev. exact I.
Qed.

Lemma datetime_now_wire : respects only_wire_traffic datetime_now.
Proof.
  intros st. repeat split. exists []. cbn. rewrite app_nil_r.
  split; [reflexivity|constructor].
Qed.

Lemma try_except_returns {A : Type} (m : M A) (handler : exn -> M A) :
  (forall x st, exists a, fst (handler x st) = Returns a) ->
  forall st, exists a, fst (try_except m handler st) = Returns a.
Proof.
  intros Hh st. unfold try_except.
  destruct (m st) as [[a|x] st']; [exists a; reflexivity|apply Hh].
Qed.

Section Socket.

Variable json_loads : string -> outcome formula_json.

Lemma read_sensor_data_returns (sensor_config : SensorConfig) st :
  exists sensor_data,
    fst (read_sensor_data json_loads sensor_config st) = Returns sensor_data.
Proof.
  unfold read_sensor_data. apply try_except_returns.
  intros x st'. exists None. reflexivity.
Qed.

Lemma read_sensor_data_wire (sensor_config : SensorConfig) :
  respects only_wire_traffic (read_sensor_data json_loads sensor_config).
Proof.
  unfold read_sensor_data.
  repeat first
    [ apply (respects_try_except _ only_wire_traffic_trans); [|intros ?]
    | apply (respects_bind _ only_wire_traffic_trans); [|intros ?]
    | apply (respects_ret _ only_wire_traffic_refl)
    | apply (respects_lift _ only_wire_traffic_refl)
    | apply (respects_raise _ only_wire_traffic_refl)
    | apply (respects_get_self _ only_wire_traffic_refl)
    | apply socket_sendall_wire
    | apply receive_response_wire
    | apply datetime_now_wire
    | match goal with
      | |- respects _ (match ?x with _ => _ end) => destruct x
      end ].
Qed.

(** X7. A read never raises, and, however it ends, it leaves the reader
    object as it was, creates, connects and closes no socket, calls no
    callback, and adds only sends and receives to what happened. *)
Theorem read_sensor_data_only_wire_traffic (sensor_config : SensorConfig)
    (self : t) (e : env) :
  let result := read_sensor_data json_loads sensor_config (self, e) in
  (exists sensor_data, fst result = Returns sensor_data)
  /\ fst (snd result) = self
  /\ next_socket (snd (snd result)) = next_socket e
  /\ connect_results (snd (snd result)) = connect_results e
  /\ callback_results (snd (snd result)) = callback_results e
  /\ exists evs,
       trace (snd (snd result)) = trace e ++ evs /\ Forall on_the_wire evs.
Proof.
  cbv zeta. split; [apply read_sensor_data_returns|].
  exact (read_sensor_data_wire sensor_config (self, e)).
Qed.

Lemma detect_change_effect sensor_config sensor_data (self : t) (e : env) :
  detect_change sensor_config sensor_data (self, e)
  = match changed (last_values self !! sensor_id sensor_config)
            (value sensor_data) with
    | Returns true =>
        match hd None (callback_results e) with
        | None =>
            (Returns tt,
             (set_last_values
                (<[sensor_id sensor_config := value sensor_data]>
                   (last_values self)) self,
              delivered sensor_data e))
        | Some x => (Raises x, (self, delivered sensor_data e))
        end
    | Returns false => (Returns tt, (self, e))
    | Raises x => (Raises x, (self, e))
    end.
Proof.
  unfold detect_change, call_data_callback, modify_self, get_self, lift,
    delivered, mbind, M_bind, mret, M_ret. cbn [fst snd].
  destruct (changed _ _) as [[|]|x]; cbn [fst snd]; try reflexivity.
  destruct (callback_results e) as [|[x|] l]; reflexivity.
Qed.

Lemma same_connection_delivered (self self' : t) (e : env)
    (sensor_data : EnhancedSensorData) :
  sock self' = sock self ->
  same_connection (self, e) (self', delivered sensor_data e).
Proof.
  intros Hsock. split; [exact Hsock|]. split; [reflexivity|]. split.
  - unfold callbacks_return, delivered. cbn [snd callback_results].
    destruct (callback_results e); cbn [tail]; [auto|].
    intros H. apply Forall_cons in H. apply H.
  - eexists. split; [reflexivity|]. repeat constructor.
Qed.

Lemma detect_change_same_connection sensor_config sensor_data :
  respects same_connection (detect_change sensor_config sensor_data).
Proof.
  intros [self e]. rewrite detect_change_effect.
  destruct (changed _ _) as [[|]|x]; cbn [snd];
    try apply same_connection_refl.
  destruct (hd None (callback_results e));
    apply same_connection_delivered; reflexivity.
Qed.

(** Of two floats, the change test raises nothing. *)
Lemma changed_floats (last_value : option number) (new_value : number) :
  match last_value with Some last => is_float last = true | None => True end ->
  is_float new_value = true ->
  exists exceeds, changed last_value new_value = Returns exceeds.
Proof.
  intros Hlast Hnew. unfold changed.
  destruct last_value as [[l|l]|]; try discriminate; [|eauto].
  destruct new_value as [v|v]; try discriminate.
  cbn. eauto.
Qed.

Lemma detect_change_returns sensor_config sensor_data st :
  callbacks_return (snd st) ->
  float_valued (fst st) ->
  is_float (value sensor_data) = true ->
  exists u, fst (detect_change sensor_config sensor_data st) = Returns u.
Proof.
  destruct st as [self e]. unfold callbacks_return. cbn [fst snd].
  intros Hcalm Hfloats Hnew. rewrite detect_change_effect.
  destruct (changed_floats (last_values self !! sensor_id sensor_config)
              (value sensor_data)) as [exceeds ->]; [|exact Hnew|].
  { destruct (last_values self !! sensor_id sensor_config) as [last|] eqn:Hl;
      [|exact I].
    exact (Hfloats _ _ Hl). }
  destruct exceeds; [|eexists; reflexivity].
  destruct (callback_results e) as [|[x|] l]; cbn [hd];
    try (eexists; reflexivity).
  apply Forall_cons in Hcalm. destruct Hcalm as [Hx _]. discriminate.
Qed.

Lemma detect_change_float_valued sensor_config sensor_data st :
  float_valued (fst st) ->
  is_float (value sensor_data) = true ->
  float_valued (fst (snd (detect_change sensor_config sensor_data st))).
Proof.
  destruct st as [self e]. cbn [fst]. intros Hfloats Hnew.
  rewrite detect_change_effect.
  destruct (changed _ _) as [[|]|x]; cbn [fst snd]; try exact Hfloats.
  destruct (hd None (callback_results e)); cbn [fst snd]; [exact Hfloats|].
  unfold float_valued. cbn [last_values set_last_values].
  apply map_Forall_insert_2; [exact Hnew|exact Hfloats].
Qed.

(** A mixed operation gives a float, and so does a division. *)
Lemma num_mul_float (x y v : number) :
  num_mul x y = Returns v -> is_float x || is_float y = true ->
  is_float v = true.
Proof.
  unfold num_mul, to_float.
  destruct x as [a|a], y as [b|b]; cbn [is_float orb]; intros H Hf;
    try discriminate Hf;
    try (destruct (float_of_int _) as [f|]; [|discriminate H]);
    cbn [mbind outcome_bind] in H; injection H as <-; reflexivity.
Qed.

Lemma num_add_float (x y v : number) :
  num_add x y = Returns v -> is_float x || is_float y = true ->
  is_float v = true.
Proof.
  unfold num_add, to_float.
  destruct x as [a|a], y as [b|b]; cbn [is_float orb]; intros H Hf;
    try discriminate Hf;
    try (destruct (float_of_int _) as [f|]; [|discriminate H]);
    cbn [mbind outcome_bind] in H; injection H as <-; reflexivity.
Qed.

Lemma num_sub_float (x y v : number) :
  num_sub x y = Returns v -> is_float x || is_float y = true ->
  is_float v = true.
Proof.
  unfold num_sub, to_float.
  destruct x as [a|a], y as [b|b]; cbn [is_float orb]; intros H Hf;
    try discriminate Hf;
    try (destruct (float_of_int _) as [f|]; [|discriminate H]);
    cbn [mbind outcome_bind] in H; injection H as <-; reflexivity.
Qed.

Lemma num_div_float (x y v : number) :
  num_div x y = Returns v -> is_float v = true.
Proof.
  unfold num_div, to_float.
  destruct x as [a|a], y as [b|b]; intros H;
    try (destruct (int_truediv a b); [|discriminate H]);
    try (destruct (float_of_int _) as [f|]; [|discriminate H]);
    cbn [mbind outcome_bind] in H;
    try (destruct (PrimFloat.eqb _ _); [discriminate H|]);
    injection H as <-; reflexivity.
Qed.

Lemma apply_conversion_formula_float (raw_value : Z)
    (sensor_config : SensorConfig) (v : number) :
  float_formula json_loads sensor_config = true ->
  apply_conversion_formula json_loads raw_value sensor_config = Returns v ->
  is_float v = true.
Proof.
  unfold float_formula, apply_conversion_formula. intros Hformula.
  cbv zeta.
  match goal with
  | |- context [match ?c with Some w => Returns w | None => _ end] =>
      set (custom := c)
  end.
  assert (Hcustom : forall w, custom = Some w -> is_float w = true).
  { intros w. unfold custom. clear custom.
    destruct (conversion_formula sensor_config) as [text|]; [|discriminate].
    destruct (bool_decide (text = ""%string)); [discriminate|].
    unfold custom_formula.
    destruct (json_loads text) as [[|ty a b]|x]; try discriminate.
    cbn [mbind outcome_bind]. case_bool_decide; [|discriminate].
    destruct (num_mul _ _) as [product|] eqn:Hmul; [|discriminate].
    cbn [mbind outcome_bind].
    destruct (num_add _ _) as [sum|] eqn:Hadd; [|discriminate].
    cbn [mbind outcome_bind]. intros [= <-].
    destruct a as [[x|fa]|]; cbn [default] in *.
    - destruct b as [[y|fb]|]; cbn [default] in *; try discriminate;
        apply (num_add_float _ _ _ Hadd); cbn [is_float];
        apply orb_true_r.
    - apply (num_add_float _ _ _ Hadd).
      rewrite (num_mul_float _ _ _ Hmul); reflexivity.
    - apply (num_add_float _ _ _ Hadd).
      rewrite (num_mul_float _ _ _ Hmul); reflexivity. }
  clearbody custom. clear Hformula.
  destruct custom as [w|]; [intros [= <-]; apply Hcustom; reflexivity|].
  clear Hcustom.
  repeat match goal with
         | |- context [if ?c then _ else _] => destruct c
         end.
  - apply num_div_float.
  - destruct (num_div _ _) as [quotient|] eqn:Hq; [|discriminate].
    cbn [mbind outcome_bind].
    destruct (num_sub _ _) as [difference|] eqn:Hd; [|discriminate].
    cbn [mbind outcome_bind].
    destruct (num_mul _ _) as [product|] eqn:Hp; [|discriminate].
    cbn [mbind outcome_bind]. intros Hv.
    apply (num_sub_float _ _ _ Hv).
    rewrite (num_mul_float _ _ _ Hp); [reflexivity|apply orb_true_r].
  - destruct (num_div _ _) as [quotient|] eqn:Hq; [|discriminate].
    cbn [mbind outcome_bind].
    destruct (num_sub _ _) as [difference|] eqn:Hd; [|discriminate].
    cbn [mbind outcome_bind]. intros Hp.
    apply (num_mul_float _ _ _ Hp), orb_true_r.
  - intros Hp. apply (num_mul_float _ _ _ Hp), orb_true_r.
  - intros Hp. apply (num_mul_float _ _ _ Hp), orb_true_r.
  - destruct (float_of_int raw_value) as [f|]; [|discriminate].
    cbn [mbind outcome_bind]. intros [= <-]. reflexivity.
Qed.

(** What a read returns carries the sensor's identifier and a value of the
    converter. *)
Lemma read_sensor_data_value (sensor_config : SensorConfig) st sensor_data :
  fst (read_sensor_data json_loads sensor_config st) = Returns (Some sensor_data) ->
  data_sensor_id sensor_data = sensor_id sensor_config
  /\ exists raw_value,
       apply_conversion_formula json_loads raw_value sensor_config
       = Returns (value sensor_data).
Proof.
  destruct st as [self e].
  unfold read_sensor_data, try_except, lift, get_self, raise, datetime_now.
  unfold mbind, M_bind, mret, M_ret. cbn [fst snd].
  destruct (build_rtu_request _ _ _ _) as [request|x]; [|discriminate].
  destruct (sock self) as [s|]; [|discriminate].
  destruct (socket_sendall s request (self, e)) as [[[]|x] st1];
    [|discriminate].
  destruct (receive_response s st1) as [[response_bytes|x] st2];
    [|discriminate].
  destruct (parse_rtu_response response_bytes)
    as [[error|slave func registers]|x]; try discriminate.
  destruct (Z.of_nat (length registers) <? reg_count sensor_config);
    [discriminate|].
  destruct (getitem registers 0) as [raw_value|x]; [|discriminate].
  cbn [fst snd].
  destruct (apply_conversion_formula json_loads raw_value sensor_config)
    as [converted|x] eqn:Hconv; [|discriminate].
  cbn [fst snd]. intros [= <-]. cbn [data_sensor_id value].
  split; [reflexivity|]. exists raw_value. exact Hconv.
Qed.

Lemma read_all_sensors_same_connection (sensors : list SensorConfig) :
  respects same_connection (read_all_sensors json_loads sensors).
Proof.
  induction sensors as [|sensor_config sensors IH]; cbn [read_all_sensors].
  - apply (respects_ret _ same_connection_refl).
  - apply (respects_bind _ same_connection_trans).
    + intros st. apply only_wire_traffic_same_connection, read_sensor_data_wire.
    + intros [d|]; [|apply (respects_ret _ same_connection_refl)].
      apply (respects_bind _ same_connection_trans);
        [apply detect_change_same_connection|intros _; exact IH].
Qed.

Lemma read_all_sensors_returns (sensors : list SensorConfig) :
  Forall (fun sensor_config => float_formula json_loads sensor_config = true)
    sensors ->
  forall st,
    callbacks_return (snd st) ->
    float_valued (fst st) ->
    exists read_success,
      fst (read_all_sensors json_loads sensors st) = Returns read_success.
Proof.
  induction 1 as [|sensor_config sensors Hformula _ IH]; intros st Hcalm Hfloats;
    cbn [read_all_sensors].
  - exists true. reflexivity.
  - unfold mbind at 1, M_bind at 1.
    destruct (read_sensor_data_returns sensor_config st) as [d Hd].
    pose proof (read_sensor_data_wire sensor_config st) as Hw.
    pose proof (read_sensor_data_value sensor_config st) as Hvalue.
    destruct (read_sensor_data json_loads sensor_config st) as [r st1].
    cbn [fst snd] in *. subst r.
    assert (Hfloats1 : float_valued (fst st1)).
    { destruct Hw as (-> & _). exact Hfloats. }
    apply only_wire_traffic_same_connection in Hw.
    destruct Hw as (_ & _ & Hcalm1 & _). specialize (Hcalm1 Hcalm).
    destruct d as [d|]; [|exists false; reflexivity].
    destruct (Hvalue d eq_refl) as (_ & raw_value & Hconv).
    pose proof (apply_conversion_formula_float _ _ _ Hformula Hconv) as Hd.
    unfold mbind, M_bind.
    destruct (detect_change_returns sensor_config d st1 Hcalm1 Hfloats1 Hd)
      as [u Hu].
    pose proof (detect_change_same_connection sensor_config d st1) as Hs.
    pose proof (detect_change_float_valued sensor_config d st1 Hfloats1 Hd)
      as Hfloats2.
    destruct (detect_change sensor_config d st1) as [r st2].
    cbn [fst snd] in *. subst r.
    destruct Hs as (_ & _ & Hcalm2 & _). apply IH; [apply Hcalm2, Hcalm1|].
    exact Hfloats2.
Qed.

(** X8. A pass of the loop that starts with a socket, and in which no
    callback raises and every value compared is a float (the values stored
    are, and no sensor has a formula with two integer coefficients), ends
    with the same socket: however the reads went, the poller neither closes
    it, nor connects it again, nor opens another. *)
Theorem connected_pass_keeps_its_socket (self : t) (e : env) (s : nat) :
  sock self = Some s ->
  Forall (fun r => r = None) (callback_results e) ->
  Forall (fun sensor_config => float_formula json_loads sensor_config = true)
    (sensors (config self)) ->
  map_Forall (fun _ v => is_float v = true) (last_values self) ->
  let result := run_iteration json_loads (self, e) in
  fst result = Returns tt
  /\ sock (fst (snd result)) = Some s
  /\ next_socket (snd (snd result)) = next_socket e
  /\ exists evs,
       trace (snd (snd result)) = trace e ++ evs
       /\ Forall leaves_sockets evs.
Proof.
  intros Hs Hcalm Hformulas Hfloats. cbv zeta. rewrite run_iteration_unfold.
  cbv zeta. cbn [fst snd].
  assert (Hreads : reads_of_pass json_loads (incr_read_count self, e)
                   = read_all_sensors json_loads
                       (sensors (config (incr_read_count self)))
                       (incr_read_count self, e)).
  { unfold reads_of_pass, get_self, mbind, M_bind, mret, M_ret.
    cbn [fst snd].
    replace (sock (incr_read_count self)) with (Some s)
      by (rewrite <- Hs; reflexivity).
    cbn [fst snd].
    destruct (read_all_sensors json_loads _ _) as [[b|x] st']; reflexivity. }
  rewrite Hreads.
  destruct (read_all_sensors_returns
              (sensors (config (incr_read_count self))) Hformulas
              (incr_read_count self, e) Hcalm Hfloats) as [b Hb].
  pose proof (read_all_sensors_same_connection
                (sensors (config (incr_read_count self)))
                (incr_read_count self, e)) as Hsame.
  destruct (read_all_sensors json_loads _ _) as [r [self' e']].
  cbn [fst snd] in *. subst r.
  destruct Hsame as (Hsock & Hnext & _ & evs & Htrace & Hevs).
  destruct b; cbn [fst snd];
    (split; [reflexivity|]; split; [rewrite <- Hs; exact Hsock|];
     split; [exact Hnext|]; exists evs; split; [exact Htrace|exact Hevs]).
Qed.





















End Socket.

Lemma connected_pass_keeps_its_socket_witness :
  sock (fst (snd (run_iteration no_json
                    (fst (entering_loop send_fails),
                     snd (entering_loop send_fails)))))
  = Some 0%nat.
Proof.
  exact (proj1 (proj2
    (connected_pass_keeps_its_socket no_json
       (fst (entering_loop send_fails)) (snd (entering_loop send_fails)) 0
       eq_refl (List.Forall_nil _)
       ltac:(vm_compute; repeat constructor)
       (map_Forall_empty _)))).
Defined.



(** ** Change detection *)

Lemma num_gt_tenth (a : Z) :
  0 <= a -> num_gt (Int a) (Float 0.1) = (0 <? a).
Proof.
  intros Ha. unfold num_gt, int_gt_float.
  replace (Prim2SF 0.1) with (S754_finite false 7205759403792794 (-56))
    by (vm_compute; reflexivity).
  cbn [Z.leb Z.compare Z.opp].
  change (2 ^ 56) with 72057594037927936.
  destruct (Z.ltb_spec 7205759403792794 (a * 72057594037927936));
    destruct (Z.ltb_spec 0 a); try reflexivity; lia.
Qed.

Lemma changed_cases (last_value : option number) (new_value : number) :
  changed last_value new_value
  = match last_value, new_value with
    | None, _ => Returns true
    | Some (Int last), Int new => Returns (negb (new =? last))
    | Some (Float last), Float new =>
        Returns (0.1 <? abs (new - last))%float
    | Some (Int last), Float new =>
        match float_of_int last with
        | Returns last => Returns (0.1 <? abs (new - last))%float
        | Raises x => Raises x
        end
    | Some (Float last), Int new =>
        match float_of_int new with
        | Returns new => Returns (0.1 <? abs (new - last))%float
        | Raises x => Raises x
        end
    end.
Proof.
  unfold changed.
  destruct last_value as [[last|last]|], new_value as [new|new];
    try reflexivity; unfold num_sub, to_float; cbn [mbind outcome_bind].
  - cbn [num_abs]. rewrite num_gt_tenth by lia. f_equal.
    destruct (Z.ltb_spec 0 (Z.abs (new - last)));
      destruct (Z.eqb_spec new last); try reflexivity; lia.
  - destruct (float_of_int last); reflexivity.
  - destruct (float_of_int new); reflexivity.
Qed.

(** The change test on integers is exact, however large they are. *)
Example changed_on_integers :
  changed (Some (Int 0)) (Int (2 ^ 63)) = Returns true
  /\ changed (Some (Int (10 ^ 400))) (Int (10 ^ 400)) = Returns false
  /\ changed (Some (Int (10 ^ 400))) (Int (10 ^ 400 + 1)) = Returns true
  /\ changed (Some (Int (10 ^ 400))) (Float 0.5) = Raises OverflowError.
Proof. rewrite !changed_cases. vm_compute. repeat split; reflexivity. Qed.



(** ** The manager *)

Lemma filter_insert_by_timestamp (p : EnhancedSensorData -> bool)
    (x : EnhancedSensorData) (l : list EnhancedSensorData) :
  (forall y, timestamp x < timestamp y -> p x = true -> p y = false) ->
  List.filter p (insert_by_timestamp x l)
  = (if p x then [x] else []) ++ List.filter p l.
Proof.
  intros Hp. induction l as [|y l IH]; cbn [insert_by_timestamp List.filter].
  - destruct (p x); reflexivity.
  - destruct (Z.ltb_spec (timestamp x) (timestamp y)) as [Hlt|Hge].
    + cbn [List.filter]. rewrite IH.
      destruct (p x) eqn:Hx; [|reflexivity].
      rewrite (Hp y Hlt eq_refl). reflexivity.
    + cbn [List.filter]. destruct (p x); reflexivity.
Qed.

Lemma filter_sort_newest_first (stamp : Z) (l : list EnhancedSensorData) :
  stamped stamp (sort_newest_first l) = stamped stamp l.
Proof.
  unfold stamped, sort_newest_first.
  induction l as [|x l IH]; [reflexivity|].
  cbn [foldr]. rewrite filter_insert_by_timestamp.
  - rewrite IH. cbn [List.filter]. destruct (timestamp x =? stamp); reflexivity.
  - intros y Hlt Hx. apply Z.eqb_eq in Hx. apply Z.eqb_neq. lia.
Qed.

Lemma filter_twice {A : Type} (p q : A -> bool) (l : list A) :
  List.filter q (List.filter p l) = List.filter (fun x => p x && q x) l.
Proof.
  induction l as [|x l IH]; [reflexivity|].
  cbn [List.filter]. destruct (p x); cbn [andb List.filter]; rewrite IH;
    reflexivity.
Qed.

Lemma filter_all {A : Type} (p : A -> bool) (l : list A) :
  (forall x, p x = true) -> List.filter p l = l.
Proof.
  intros Hp. induction l as [|x l IH]; [reflexivity|].
  cbn [List.filter]. rewrite Hp, IH. reflexivity.
Qed.

Section Queries.

Context {W : Type}.

Import MultiIOModuleManager.

Lemma get_latest_data_wanted (self : t W) (sensor_id : option string)
    (sensor_type : option SensorType) :
  get_latest_data W self sensor_id sensor_type
  = sort_newest_first
      (List.filter (wanted sensor_id sensor_type) (all_data W self)).
Proof.
  unfold get_latest_data, wanted. f_equal.
  destruct sensor_id as [id|], sensor_type as [ty|].
  - destruct (bool_decide (id = ""%string)); cbn [orb].
    + reflexivity.
    + apply filter_twice.
  - destruct (bool_decide (id = ""%string)); cbn [orb].
    + symmetry. apply filter_all. reflexivity.
    + apply List.filter_ext. intros d. rewrite andb_true_r. reflexivity.
  - reflexivity.
  - symmetry. apply filter_all. reflexivity.
Qed.

(** X11. [get_latest_data] returns the buffered readings that pass the
    filters given, each as often as the buffer holds it, newest first, and
    readings with the same timestamp in the order they were received.  A
    reading passes when its sensor identifier is the one asked for, if one is
    asked for, and its sensor type is the member asked for, if one is asked
    for; an empty sensor identifier counts as none asked for, so the readings
    of a sensor named [""] cannot be selected. *)
Theorem get_latest_data_filters (self : t W) (sensor_id : option string)
    (sensor_type : option SensorType) :
  let result := get_latest_data W self sensor_id sensor_type in
  let passing := List.filter (wanted sensor_id sensor_type) (all_data W self) in
  Permutation result passing
  /\ (forall d,
        In d passing <->
        In d (all_data W self)
        /\ match sensor_id with
           | Some id => id = ""%string \/ data_sensor_id d = id
           | None => True
           end
        /\ match sensor_type with
           | Some ty => data_sensor_type d = Member ty
           | None => True
           end)
  /\ StronglySorted newer_or_equal result
  /\ (forall stamp, stamped stamp result = stamped stamp passing)
  /\ get_latest_data W self (Some ""%string) sensor_type
     = get_latest_data W self None sensor_type.
Proof.
  cbv zeta. rewrite !get_latest_data_wanted.
  split; [apply sort_newest_first_perm|].
  split.
  { intros d. rewrite List.filter_In. unfold wanted.
    rewrite andb_true_iff.
    destruct sensor_id as [id|], sensor_type as [ty|];
      rewrite ?orb_true_iff, ?bool_decide_eq_true; tauto. }
  split; [apply sort_newest_first_sorted|].
  split; [intros stamp; apply filter_sort_newest_first|].
  reflexivity.
Qed.

(** X12. [add_module] leaves the manager holding a fresh reader for the
    configuration under its module identifier, whether or not one was
    registered before, and [remove_module] afterwards leaves the modules as
    they were without that identifier; neither touches another module, the
    buffer or the callbacks.  Removing an identifier that is not registered
    changes nothing. *)
Theorem remove_module_after_add_module (self : t W) (config : IOModuleConfig) :
  let added := snd (add_module W self config) in
  let removed := remove_module W added (module_id config) in
  modules W added
  = <[module_id config :=
        IOModuleReader.__init__ config
          IOModuleReader.on_data_received_of_manager]> (modules W self)
  /\ modules W removed = delete (module_id config) (modules W self)
  /\ (forall other, other <> module_id config ->
        modules W added !! other = modules W self !! other
        /\ modules W removed !! other = modules W self !! other)
  /\ all_data W removed = all_data W self
  /\ data_callbacks W removed = data_callbacks W self
  /\ (forall absent, modules W self !! absent = None ->
        remove_module W self absent = self).
Proof.
  cbv zeta.
  assert (Hadded :
    modules W (snd (add_module W self config))
    = <[module_id config :=
          IOModuleReader.__init__ config
            IOModuleReader.on_data_received_of_manager]> (modules W self)).
  { unfold add_module. cbn [snd modules].
    case_bool_decide as Hin; [|reflexivity].
    destruct Hin as [reader Hreader].
    unfold remove_module. rewrite Hreader. cbn [modules].
    rewrite delete_insert_eq, insert_delete_eq. reflexivity. }
  assert (Hdata :
    all_data W (snd (add_module W self config)) = all_data W self
    /\ data_callbacks W (snd (add_module W self config))
       = data_callbacks W self).
  { unfold add_module. cbn [snd all_data data_callbacks].
    case_bool_decide as Hin; [|split; reflexivity].
    destruct Hin as [reader Hreader].
    unfold remove_module. rewrite Hreader. split; reflexivity. }
  assert (Hremoved :
    modules W (remove_module W (snd (add_module W self config))
                 (module_id config))
    = delete (module_id config) (modules W self)).
  { unfold remove_module at 1. rewrite Hadded, lookup_insert_eq.
    cbn [modules]. rewrite !delete_insert_eq. reflexivity. }
  split; [exact Hadded|].
  split; [exact Hremoved|].
  split.
  { intros other Hother. rewrite Hremoved, Hadded.
    rewrite lookup_insert_ne, lookup_delete_ne by congruence.
    split; reflexivity. }
  split.
  { unfold remove_module at 1. rewrite Hadded, lookup_insert_eq.
    cbn [all_data]. apply Hdata. }
  split.
  { unfold remove_module at 1. rewrite Hadded, lookup_insert_eq.
    cbn [data_callbacks]. apply Hdata. }
  intros absent Habsent. unfold remove_module. rewrite Habsent. reflexivity.
Qed.

Lemma call_callbacks_app (i : nat) (first later : list (consumer W))
    (d : EnhancedSensorData) (w : W) :
  call_callbacks W i (first ++ later) d w
  = let '(w1, calls1) := call_callbacks W i first d w in
    let '(w2, calls2) := call_callbacks W (i + length first) later d w1 in
    (w2, calls1 ++ calls2).
Proof.
  revert i w. induction first as [|callback first IH]; intros i w.
  - cbn [app call_callbacks length]. rewrite Nat.add_0_r.
    destruct (call_callbacks W i later d w). reflexivity.
  - cbn [app call_callbacks length].
    destruct (callback d w) as [w1 r]. rewrite IH.
    destruct (call_callbacks W (S i) first d w1) as [w2 calls1].
    replace (S i + length first)%nat with (i + S (length first))%nat by lia.
    destruct (call_callbacks W (i + S (length first)) later d w2)
      as [w3 calls2].
    rewrite app_assoc. reflexivity.
Qed.

(** X13. A callback registered with [add_data_callback] runs after all the
    callbacks registered before it, on the state they leave, whether or not
    any of them raised, and does not change what the manager buffers or what
    the earlier callbacks do; registering the same callback again makes it
    run once more per reading. *)
Theorem add_data_callback_runs_last (self : t W) (callback : consumer W)
    (d : EnhancedSensorData) (w : W) :
  let '(before, w1, events1) := on_data_received W self d w in
  let '(after, w2, events2) :=
    on_data_received W (add_data_callback W self callback) d w in
  let position := length (data_callbacks W self) in
  all_data W after = all_data W before
  /\ w2 = fst (callback d w1)
  /\ events2
     = events1
       ++ CallbackCalled position
          :: match snd (callback d w1) with
             | Some e => [ErrorLogged position e]
             | None => []
             end.
Proof.
  unfold on_data_received, add_data_callback. cbn [data_callbacks all_data].
  rewrite call_callbacks_app. cbn [call_callbacks].
  destruct (call_callbacks W 0 (data_callbacks W self) d w) as [w1 calls1].
  cbn [Nat.add]. destruct (callback d w1) as [w2 r]. cbn [fst snd all_data].
  split; [reflexivity|]. split; [reflexivity|].
  rewrite app_nil_r.
  destruct r; cbn [app]; rewrite <- ?app_assoc; reflexivity.
Qed.

Import IntegratedSensorSystem.

(** X14. [add_module_config] never registers [on_sensor_data]: the call of
    [add_module] raises [AttributeError] after the reader is stored, so the
    method raises, the manager holds the module, and its callbacks are the
    ones it had; a reading delivered afterwards reaches the same callbacks
    as before. *)
Theorem add_module_config_registers_nothing (sensor_manager : t W)
    (on_sensor_data : consumer W) (config : IOModuleConfig)
    (d : EnhancedSensorData) (w : W) :
  let result := add_module_config W sensor_manager on_sensor_data config in
  fst result = Raises AttributeError
  /\ is_Some (modules W (snd result) !! module_id config)
  /\ data_callbacks W (snd result) = data_callbacks W sensor_manager
  /\ snd (on_data_received W (snd result) d w)
     = snd (on_data_received W sensor_manager d w)
  /\ snd (fst (on_data_received W (snd result) d w))
     = snd (fst (on_data_received W sensor_manager d w)).
Proof.
  cbv zeta. unfold add_module_config, add_module.
  cbn [add_module_message IOModuleConfig_getattr]. cbn.
  assert (Hcallbacks : forall m : t W,
    data_callbacks W
      (if bool_decide (is_Some (modules W m !! module_id config))
       then remove_module W m (module_id config) else m)
    = data_callbacks W m).
  { intros m. case_bool_decide as Hin; [|reflexivity].
    destruct Hin as [reader Hreader].
    unfold remove_module. rewrite Hreader. reflexivity. }
  split; [reflexivity|].
  split; [rewrite lookup_insert_eq; eauto|].
  split; [apply Hcallbacks|].
  unfold on_data_received. cbn [data_callbacks]. rewrite Hcallbacks.
  destruct (call_callbacks W 0 (data_callbacks W sensor_manager) d w).
  split; reflexivity.
Qed.

End Queries.

Import IntegratedSensorSystem.

Lemma on_sensor_data_counts (redis_client mongo_client : bool)
    (save_to_redis save_to_mongodb : option exn) (stats : Stats) :
  let stats' :=
    on_sensor_data redis_client mongo_client save_to_redis save_to_mongodb
      stats in
  total_read stats' = total_read stats + 1
  /\ redis_saved stats' + mongo_saved stats' + errors stats'
     = redis_saved stats + mongo_saved stats + errors stats
       + Z.b2z redis_client + Z.b2z mongo_client
  /\ redis_saved stats <= redis_saved stats'
  /\ mongo_saved stats <= mongo_saved stats'
  /\ errors stats <= errors stats'
  /\ (redis_client = false -> redis_saved stats' = redis_saved stats)
  /\ (mongo_client = false -> mongo_saved stats' = mongo_saved stats).
Proof.
  unfold on_sensor_data.
  destruct redis_client, mongo_client, save_to_redis, save_to_mongodb;
    cbn; repeat split; intros; try discriminate; lia.
Qed.

(** X15. The counters of [on_sensor_data] account for every reading: after
    any number of calls, whatever the stores did, [total_read] has grown by
    the number of readings, and [redis_saved + mongo_saved + errors] by that
    number times the number of stores configured, each store adding one to
    its own counter or to [errors] per reading.  No counter goes down, and a
    store that is not configured never counts a saved reading. *)
Theorem on_sensor_data_accounts (redis_client mongo_client : bool)
    (saves : list (option exn * option exn)) (stats : Stats) :
  let stats' := on_all_sensor_data redis_client mongo_client saves stats in
  let readings := Z.of_nat (length saves) in
  total_read stats' = total_read stats + readings
  /\ redis_saved stats' + mongo_saved stats' + errors stats'
     = redis_saved stats + mongo_saved stats + errors stats
       + (Z.b2z redis_client + Z.b2z mongo_client) * readings
  /\ redis_saved stats <= redis_saved stats'
  /\ mongo_saved stats <= mongo_saved stats'
  /\ errors stats <= errors stats'
  /\ (redis_client = false -> redis_saved stats' = redis_saved stats)
  /\ (mongo_client = false -> mongo_saved stats' = mongo_saved stats).
Proof.
  cbv zeta. unfold on_all_sensor_data. revert stats.
  induction saves as [|save saves IH]; intros stats.
  - cbn [fold_left length]. repeat split; intros; lia.
  - cbn [fold_left].
    pose proof (on_sensor_data_counts redis_client mongo_client (fst save)
                  (snd save) stats) as Hone.
    cbv zeta in Hone.
    destruct Hone as (H1 & H2 & H3 & H4 & H5 & H6 & H7).
    destruct (IH (on_sensor_data redis_client mongo_client (fst save)
                    (snd save) stats))
      as (I1 & I2 & I3 & I4 & I5 & I6 & I7).
    rewrite length_cons, Nat2Z.inj_succ.
    repeat split; intros; try rewrite ?I6, ?I7, ?H6, ?H7 by assumption; lia.
Qed.
